(** * shop_manager: the POS receipt printer ([src/utils/posPrint.ts])

    A shallow embedding of [POSPrinter]: the ESC/POS receipt formatter
    ([formatReceipt], [padLine]) and the cascade of print transports
    ([print], [printViaPOSCommand], [printViaSerial], [printViaBrowser]),
    with the properties its specification states about them.

    JavaScript strings are sequences of UTF-16 code units, JavaScript numbers
    are binary64 floats rendered as ECMAScript prescribes ([toString],
    [toFixed]), and the host (browser, devices, network, clock) is an explicit
    record of answers together with a trace of the calls made to it.
    [async]/[await] is read sequentially, one call of [print] at a time;
    [console.log] and [console.error] leave no mark.  The source file holds
    two variants of the class; this is the one with the full cascade (USB,
    Android, Windows, raw socket, serial, browser). *)

From Stdlib Require Import ZArith NArith List Sorted Bool Lia Ascii String Floats.
From Equations Require Import Equations.
Import ListNotations.

Set Warnings "-inexact-float".

(* ===================================================================== *)
(** * JavaScript strings *)
(* ===================================================================== *)

Module Js.

(** One UTF-16 code unit. *)
Definition char16 := N.

(** A JavaScript string value. *)
Definition str := list char16.

(** An ASCII literal of the source, as a JavaScript string. *)
Definition lit (s : string) : str := map N_of_ascii (list_ascii_of_string s).

Definition space : char16 := 32%N.

(** [s.length] *)
Definition len (s : str) : nat := List.length s.

(** [s.repeat(n)] *)
Definition repeat (s : str) (n : nat) : str := List.concat (List.repeat s n).

(** [s.padEnd(w)], padding with spaces. *)
Definition padEnd (s : str) (w : nat) : str := s ++ List.repeat space (w - len s).

(** [s.padStart(w)], padding with spaces. *)
Definition padStart (s : str) (w : nat) : str := List.repeat space (w - len s) ++ s.

(** [s.substring(a, b)]: both indices are clamped to the length and swapped
    when out of order. *)
Definition substring (s : str) (a b : nat) : str :=
  let a' := Nat.min a (len s) in
  let b' := Nat.min b (len s) in
  let lo := Nat.min a' b' in
  let hi := Nat.max a' b' in
  firstn (hi - lo) (skipn lo s).

(** [t] occurs in [s] as a contiguous substring ([s.includes(t)]). *)
Definition Includes (s t : str) : Prop := exists pre post, s = pre ++ t ++ post.

Fixpoint starts_with (t s : str) : bool :=
  match t, s with
  | [], _ => true
  | _ :: _, [] => false
  | c :: t', d :: s' => N.eqb c d && starts_with t' s'
  end.

Fixpoint includes (s t : str) : bool :=
  starts_with t s ||
  match s with
  | [] => false
  | _ :: s' => includes s' t
  end.

(** The lines of a text: the pieces between line feeds. *)
Fixpoint lines (s : str) : list str :=
  match s with
  | [] => [[]]
  | c :: s' =>
      if N.eqb c 10 then [] :: lines s'
      else match lines s' with
           | l :: ls => (c :: l) :: ls
           | [] => [[c]]
           end
  end.

(** [TextEncoder.encode]: UTF-8 bytes of a string.  Surrogate pairs are
    combined into one code point; a lone surrogate becomes U+FFFD. *)
Definition is_high (c : char16) : bool := (55296 <=? c)%N && (c <=? 56319)%N.
Definition is_low (c : char16) : bool := (56320 <=? c)%N && (c <=? 57343)%N.

Fixpoint code_points (s : str) : list N :=
  match s with
  | [] => []
  | c :: s' =>
      if is_high c then
        match s' with
        | d :: s'' =>
            if is_low d
            then (65536 + (c - 55296) * 1024 + (d - 56320))%N :: code_points s''
            else 65533%N :: code_points s'
        | [] => [65533%N]
        end
      else if is_low c then 65533%N :: code_points s'
      else c :: code_points s'
  end.

Definition utf8 (cp : N) : list N :=
  if (cp <? 128)%N then [cp]
  else if (cp <? 2048)%N then [192 + cp / 64; 128 + cp mod 64]%N
  else if (cp <? 65536)%N then
    [224 + cp / 4096; 128 + (cp / 64) mod 64; 128 + cp mod 64]%N
  else
    [240 + cp / 262144; 128 + (cp / 4096) mod 64;
     128 + (cp / 64) mod 64; 128 + cp mod 64]%N.

Definition encode (s : str) : list N := flat_map utf8 (code_points s).

(** [s === t] on strings. *)
Fixpoint eqb (s t : str) : bool :=
  match s, t with
  | [], [] => true
  | c :: s', d :: t' => N.eqb c d && eqb s' t'
  | _, _ => false
  end.

End Js.

(* ===================================================================== *)
(** * JavaScript numbers *)
(* ===================================================================== *)

Module Number.

(** A Number value is an IEEE 754 binary64 float. *)
Definition t := float.

(** [x > 0] *)
Definition gt0 (x : t) : bool := PrimFloat.ltb 0%float x.

Fixpoint of_uint (u : Decimal.uint) : Js.str :=
  match u with
  | Decimal.Nil => []
  | Decimal.D0 u => 48%N :: of_uint u
  | Decimal.D1 u => 49%N :: of_uint u
  | Decimal.D2 u => 50%N :: of_uint u
  | Decimal.D3 u => 51%N :: of_uint u
  | Decimal.D4 u => 52%N :: of_uint u
  | Decimal.D5 u => 53%N :: of_uint u
  | Decimal.D6 u => 54%N :: of_uint u
  | Decimal.D7 u => 55%N :: of_uint u
  | Decimal.D8 u => 56%N :: of_uint u
  | Decimal.D9 u => 57%N :: of_uint u
  end.

(** The decimal digits of a natural number, most significant first;
    ["0"] for zero. *)
Definition decimal (n : Z) : Js.str := of_uint (N.to_uint (Z.to_N n)).

Definition zeros (n : nat) : Js.str := List.repeat 48%N n.

(** Division of integers rounded up, for a positive divisor. *)
Definition cdiv (a b : Z) : Z := (- ((- a) / b))%Z.

(** The fraction [num / den] divided by [10 ^ p]. *)
Definition scale10 (p : Z) (num den : Z) : Z * Z :=
  if (0 <=? p)%Z then (num, den * 10 ^ p)%Z else (num * 10 ^ (- p), den)%Z.

(** Nearest integer to [num / den], ties to the even one. *)
Definition round_even (num den : Z) : Z :=
  let q := (num / den)%Z in
  let r := (2 * (num mod den))%Z in
  if (r <? den)%Z then q
  else if (den <? r)%Z then (q + 1)%Z
  else if Z.even q then q else (q + 1)%Z.

(** Nearest integer to [num / den], ties upward. *)
Definition round_up (num den : Z) : Z :=
  let q := (num / den)%Z in
  if (2 * (num mod den) <? den)%Z then q else (q + 1)%Z.

(** The set of reals that round to the double [m * 2^e]: the interval between
    the midpoints to its two neighbours, as numerators over a common
    denominator, and whether the end points belong to it (they do when the
    significand is even). *)
Record interval := {
  lo_num : Z; val_num : Z; hi_num : Z; den : Z; closed : bool }.

Definition rounding_interval (m : positive) (e : Z) : interval :=
  let m := Z.pos m in
  let narrow := (m =? 2 ^ 52)%Z && (-1074 <? e)%Z in
  let lo := if narrow then (4 * m - 1)%Z else (4 * m - 2)%Z in
  let hi := (4 * m + 2)%Z in
  let e2 := (e - 2)%Z in
  if (0 <=? e2)%Z
  then {| lo_num := lo * 2 ^ e2; val_num := 4 * m * 2 ^ e2;
          hi_num := hi * 2 ^ e2; den := 1; closed := Z.even m |}
  else {| lo_num := lo; val_num := 4 * m; hi_num := hi;
          den := 2 ^ (- e2); closed := Z.even m |}.

(** The integers [s] with [s * 10^p] inside the interval: smallest, largest,
    and the one nearest to the value itself. *)
Definition candidates (i : interval) (p : Z) : Z * Z * Z :=
  let '(ln, ld) := scale10 p (lo_num i) (den i) in
  let '(vn, vd) := scale10 p (val_num i) (den i) in
  let '(hn, hd) := scale10 p (hi_num i) (den i) in
  let smin := if closed i then cdiv ln ld else (ln / ld + 1)%Z in
  let smax := if closed i then (hn / hd)%Z else (cdiv hn hd - 1)%Z in
  (smin, smax, round_even vn vd).

Definition has_candidate (i : interval) (p : Z) : bool :=
  let '(smin, smax, _) := candidates i p in
  (smin <=? smax)%Z && (1 <=? smax)%Z.

Definition pick (i : interval) (p : Z) : Z :=
  let '(smin, smax, near) := candidates i p in
  Z.max (Z.max 1 smin) (Z.min smax near).

(** The shortest decimal significand [s] and exponent [p] with [s * 10^p]
    rounding to [m * 2^e]: the largest [p] that has a candidate.  The
    search starts above the decimal exponent of the value and, for a binary64
    value, ends within some twenty steps. *)
Definition shortest (m : positive) (e : Z) : Z * Z :=
  let i := rounding_interval m e in
  let bits := (e + Z.log2 (Z.pos m) + 2)%Z in
  let start := (bits * 30103 / 100000 + 2)%Z in
  let tries := map (fun k => (start - Z.of_nat k)%Z) (seq 0 40) in
  match find (has_candidate i) tries with
  | Some p => (pick i p, p)
  | None => (round_even (val_num i) (den i), 0%Z)
  end.

(** Number::toString for a positive finite value with digits [s] and
    [s * 10^p] its value. *)
Definition render (s p : Z) : Js.str :=
  let ds := decimal s in
  let k := Z.of_nat (Js.len ds) in
  let n := (k + p)%Z in
  if (-5 <=? n)%Z && (n <=? 21)%Z then
    if (k <=? n)%Z then ds ++ zeros (Z.to_nat (n - k))
    else if (0 <? n)%Z then
      firstn (Z.to_nat n) ds ++ Js.lit "." ++ skipn (Z.to_nat n) ds
    else Js.lit "0." ++ zeros (Z.to_nat (- n)) ++ ds
  else
    let x := (n - 1)%Z in
    let sign := if (0 <=? x)%Z then Js.lit "+" else Js.lit "-" in
    let mant := match ds with
                | [d] => [d]
                | d :: rest => d :: Js.lit "." ++ rest
                | [] => []
                end in
    mant ++ Js.lit "e" ++ sign ++ decimal (Z.abs x).

(** [x.toString()] and [`${x}`] *)
Definition toString (x : t) : Js.str :=
  match Prim2SF x with
  | S754_nan => Js.lit "NaN"
  | S754_zero _ => Js.lit "0"
  | S754_infinity neg =>
      (if neg then Js.lit "-" else []) ++ Js.lit "Infinity"
  | S754_finite neg m e =>
      let '(s, p) := shortest m e in
      (if neg then Js.lit "-" else []) ++ render s p
  end.

(** [x.toFixed(f)] *)
Definition toFixed (x : t) (f : nat) : Js.str :=
  match Prim2SF x with
  | S754_nan => Js.lit "NaN"
  | S754_infinity neg =>
      (if neg then Js.lit "-" else []) ++ Js.lit "Infinity"
  | S754_zero _ =>
      if Nat.eqb f 0 then Js.lit "0" else Js.lit "0." ++ zeros f
  | S754_finite neg m e =>
      let sign := if neg then Js.lit "-" else [] in
      (* the absolute value is num / dn *)
      let '(num, dn) :=
        if (0 <=? e)%Z then (Z.pos m * 2 ^ e, 1)%Z else (Z.pos m, 2 ^ (- e))%Z in
      if (10 ^ 21 * dn <=? num)%Z then
        let '(s, p) := shortest m e in sign ++ render s p
      else
        let n := round_up (num * 10 ^ Z.of_nat f) dn in
        let ds := decimal n in
        if Nat.eqb f 0 then sign ++ ds
        else
          let ds := zeros (f + 1 - Js.len ds) ++ ds in
          let k := Js.len ds in
          sign ++ firstn (k - f) ds ++ Js.lit "." ++ skipn (k - f) ds
  end.

End Number.

(* ===================================================================== *)
(** * The data model: [PrintItem] and [PrintData] *)
(* ===================================================================== *)

Module PrintItem.
Record t := {
  name : Js.str;
  quantity : Number.t;
  price : Number.t;
  total : Number.t }.
End PrintItem.

Module PrintData.
Record t := {
  storeName : Js.str;
  customerName : option Js.str;
  customerPhone : option Js.str;
  items : list PrintItem.t;
  subtotal : Number.t;
  tax : Number.t;
  taxPercentage : Number.t;
  total : Number.t;
  currency : Js.str;
  paymentMethod : Js.str }.
End PrintData.

(** The truthiness test [if (s)] for an optional string: [undefined] and the
    empty string are falsy. *)
Definition truthy (s : option Js.str) : bool :=
  match s with
  | Some (_ :: _) => true
  | _ => false
  end.

(** The text interpolated for an optional string known to be truthy. *)
Definition text (s : option Js.str) : Js.str :=
  match s with
  | Some v => v
  | None => Js.lit "undefined"
  end.

(* ===================================================================== *)
(** * The host: devices, network, clock, and the trace of calls *)
(* ===================================================================== *)

Module Host.

(** The print transports, in the order [print] ranks them. *)
Inductive Strategy :=
| WebUSB | AndroidIntent | WindowsPrint | RawSocket | Serial | Browser.

(** What [fetch] does: the promise rejects, or a response arrives. *)
Inductive Fetched := Rejects | Response (ok : bool).

(** The answers of the host to everything [POSPrinter] asks of it during one
    call of [print].  A boolean answer of a call says whether it returns
    ([true]) or throws ([false]). *)
Record t := {
  clock : nat -> Js.str;            (* the n-th [new Date().toLocaleString()] *)
  has_usb : bool;                   (* ['usb' in navigator] *)
  usb_requestDevice : bool;
  usb_open : bool;
  usb_selectConfiguration : bool;
  usb_claimInterface : bool;
  usb_transferOut : list N -> bool;
  usb_close : bool;
  has_Android : bool;               (* [typeof window.Android !== 'undefined'] *)
  Android_print : Js.str -> bool;
  has_androidIntent : bool;         (* ['androidIntent' in window] *)
  androidIntent_print : Js.str -> bool;
  has_external : bool;              (* [typeof window.external !== 'undefined'] *)
  has_external_print : bool;        (* [window.external.print] is truthy *)
  external_print : Js.str -> bool;
  fetch : Js.str -> Js.str -> Fetched;
  has_serial : bool;                (* ['serial' in navigator] *)
  serial_requestPort : bool;
  port_open : Z -> bool;
  port_getWriter : bool;
  writer_write : nat -> list N -> bool;  (* by offset of the chunk *)
  port_close : bool;
  window_open : bool }.             (* [window.open] returns a window, not null *)

(** What the host sees of a run. *)
Inductive Event :=
| Call (s : Strategy)                 (* a transport method is entered *)
| Return (s : Strategy) (ok : bool)   (* it returns ([true]) or throws *)
| UsbRequestDevice
| UsbOpen
| UsbSelectConfiguration (n : N)
| UsbClaimInterface (n : N)
| UsbTransferOut (endpoint : N) (bytes : list N)
| UsbClose
| AndroidPrint (payload : Js.str)
| AndroidIntentPrint (payload : Js.str)
| ExternalPrint (payload : Js.str)
| Fetch (url body : Js.str)
| SerialRequestPort
| PortOpen (baudRate : Z)
| GetWriter
| WriterWrite (chunk : list N) (ok : bool)
| Delay (ms : N)
| ReleaseLock
| PortClose
| WindowOpen
| DocumentWrite (now : Js.str) (data : PrintData.t)
    (* the markup of [receiptHTML], a template over the date and the data *)
| DocumentClose.

(** Thrown values: whatever a host call throws, [new Error(msg)], or
    [new Error(msg + cause)]. *)
Inductive Exn :=
| Rejected
| Error (msg : Js.str)
| ErrorFrom (msg : Js.str) (cause : Exn).

Inductive Outcome (A : Type) :=
| Ok (a : A)
| Thrown (e : Exn).
Arguments Ok {A} a.
Arguments Thrown {A} e.

Definition is_ok {A} (o : Outcome A) : bool :=
  match o with Ok _ => true | Thrown _ => false end.

(** A run from a number of earlier clock readings: its outcome, the number
    of readings after it, and the events it produced, oldest first. *)
Record Run (A : Type) := {
  outcome : Outcome A;
  reads : nat;
  trace : list Event }.
Arguments outcome {A} r.
Arguments reads {A} r.
Arguments trace {A} r.

Definition IO (A : Type) : Type := nat -> Run A.

Definition ret {A} (a : A) : IO A :=
  fun n => {| outcome := Ok a; reads := n; trace := [] |}.

Definition throw {A} (e : Exn) : IO A :=
  fun n => {| outcome := Thrown e; reads := n; trace := [] |}.

Definition bind {A B} (m : IO A) (k : A -> IO B) : IO B :=
  fun n =>
    let r := m n in
    match outcome r with
    | Ok a =>
        let r' := k a (reads r) in
        {| outcome := outcome r'; reads := reads r'; trace := trace r ++ trace r' |}
    | Thrown e =>
        {| outcome := Thrown e; reads := reads r; trace := trace r |}
    end.

(** [try { m } catch (e) { h e }] *)
Definition catch {A} (m : IO A) (h : Exn -> IO A) : IO A :=
  fun n =>
    let r := m n in
    match outcome r with
    | Ok a => r
    | Thrown e =>
        let r' := h e (reads r) in
        {| outcome := outcome r'; reads := reads r'; trace := trace r ++ trace r' |}
    end.

(** A call into the host that returns nothing. *)
Definition call (ev : Event) (ok : bool) : IO unit :=
  fun n => {| outcome := if ok then Ok tt else Thrown Rejected;
              reads := n; trace := [ev] |}.

(** A transport method, with its entry and its exit on the trace. *)
Definition method (s : Strategy) (body : IO unit) : IO unit :=
  fun n =>
    let r := body n in
    {| outcome := outcome r; reads := reads r;
       trace := Call s :: trace r ++ [Return s (is_ok (outcome r))] |}.

Declare Scope io_scope.
Delimit Scope io_scope with io.
Notation "x <- m ;; k" := (bind m (fun x => k))
  (at level 61, m at next level, right associativity) : io_scope.
Notation "m ;; k" := (bind m (fun _ => k))
  (at level 61, right associativity) : io_scope.

End Host.

(* ===================================================================== *)
(** * The receipt formatter *)
(* ===================================================================== *)

Module POSPrinter.

Definition ESC : Js.str := [27%N].
Definition GS : Js.str := [29%N].
Definition LF : Js.str := [10%N].
Definition CR : Js.str := [13%N].

(** ESC/POS commands *)
Definition INIT := ESC ++ Js.lit "@".
Definition ALIGN_CENTER := ESC ++ Js.lit "a" ++ [1%N].
Definition ALIGN_LEFT := ESC ++ Js.lit "a" ++ [0%N].
Definition ALIGN_RIGHT := ESC ++ Js.lit "a" ++ [2%N].
Definition BOLD_ON := ESC ++ Js.lit "E" ++ [1%N].
Definition BOLD_OFF := ESC ++ Js.lit "E" ++ [0%N].
Definition SIZE_NORMAL := GS ++ Js.lit "!" ++ [0%N].
Definition SIZE_DOUBLE := GS ++ Js.lit "!" ++ [17%N].
Definition CUT_PAPER := GS ++ Js.lit "V" ++ [65%N] ++ [3%N].
Definition LINE_FEED := LF.
Definition DRAWER_OPEN := ESC ++ Js.lit "p" ++ [0%N] ++ [25%N] ++ [250%N].

Definition maxWidth := 48.
Definition col1Width := 16.
Definition col2Width := 4.
Definition col3Width := 10.
Definition col4Width := 10.

(** [String.prototype.center], the extension [posPrint.ts] adds to strings:
    [Math.max(0, width - this.length)] is the truncated subtraction. *)
Definition center (this : Js.str) (width : nat) : Js.str :=
  let padding := width - Js.len this in
  let leftPad := padding / 2 in
  let rightPad := padding - leftPad in
  Js.repeat (Js.lit " ") leftPad ++ this ++ Js.repeat (Js.lit " ") rightPad.

Definition padLine (col1 col2 col3 col4 : Js.str) : Js.str :=
  Js.substring (Js.padEnd col1 col1Width) 0 col1Width ++
  Js.substring (Js.padStart col2 col2Width) 0 col2Width ++
  Js.substring (Js.padStart col3 col3Width) 0 col3Width ++
  Js.substring (Js.padStart col4 col4Width) 0 col4Width.

(** ** The formatter as the source writes it

    [formatReceipt] builds its result in the local variable [receipt] by
    repeated [receipt += ...] while reading the object [data] refers to.
    Both are threaded as state, so that what the function does to its
    argument is part of the model. *)

Record fstate := {
  data_obj : PrintData.t;   (* the object the argument [data] refers to *)
  receipt : Js.str }.        (* the local accumulator *)

Definition Fmt (A : Type) : Type := fstate -> A * fstate.

Definition fret {A} (a : A) : Fmt A := fun st => (a, st).

Definition fbind {A B} (m : Fmt A) (k : A -> Fmt B) : Fmt B :=
  fun st => let '(a, st') := m st in k a st'.

Declare Scope fmt_scope.
Delimit Scope fmt_scope with fmt.
Notation "x <- m ;; k" := (fbind m (fun x => k))
  (at level 61, m at next level, right associativity) : fmt_scope.
Notation "m ;; k" := (fbind m (fun _ => k))
  (at level 61, right associativity) : fmt_scope.

(** [receipt += s] *)
Definition emit (s : Js.str) : Fmt unit :=
  fun st => (tt, {| data_obj := data_obj st; receipt := receipt st ++ s |}).

(** [data.field] *)
Definition get {A} (field : PrintData.t -> A) : Fmt A :=
  fun st => (field (data_obj st), st).

(** [xs.forEach(body)] *)
Fixpoint forEach {A} (xs : list A) (body : A -> Fmt unit) : Fmt unit :=
  match xs with
  | [] => fret tt
  | x :: xs' => fbind (body x) (fun _ => forEach xs' body)
  end.

Definition when (b : bool) (m : Fmt unit) : Fmt unit :=
  if b then m else fret tt.

Local Open Scope fmt_scope.

(** The body of [formatReceipt]; [now] is what
    [new Date().toLocaleString()] returns during the call. *)
Definition formatReceipt_body (now : Js.str) : Fmt unit :=
  (* Initialize printer with proper wake-up sequence *)
  emit INIT ;;
  emit (ESC ++ Js.lit "@") ;;
  emit [10%N] ;;
  (* Store name (centered, bold, double size) *)
  emit ALIGN_CENTER ;;
  emit SIZE_DOUBLE ;;
  emit BOLD_ON ;;
  storeName <- get PrintData.storeName ;;
  emit (storeName ++ LINE_FEED) ;;
  emit BOLD_OFF ;;
  emit SIZE_NORMAL ;;
  emit LINE_FEED ;;
  (* Separator line *)
  emit ALIGN_LEFT ;;
  emit (Js.repeat (Js.lit "-") 48 ++ LINE_FEED) ;;
  (* Customer info *)
  customerName <- get PrintData.customerName ;;
  when (truthy customerName)
    (emit (Js.lit "Customer: " ++ text customerName ++ LINE_FEED)) ;;
  customerPhone <- get PrintData.customerPhone ;;
  when (truthy customerPhone)
    (emit (Js.lit "Phone: " ++ text customerPhone ++ LINE_FEED)) ;;
  emit (Js.lit "Date: " ++ now ++ LINE_FEED) ;;
  paymentMethod <- get PrintData.paymentMethod ;;
  emit (Js.lit "Payment: " ++ paymentMethod ++ LINE_FEED) ;;
  emit (Js.repeat (Js.lit "-") 48 ++ LINE_FEED) ;;
  (* Items header *)
  emit (padLine (Js.lit "Item") (Js.lit "Qty") (Js.lit "Price") (Js.lit "Total")
        ++ LINE_FEED) ;;
  emit (Js.repeat (Js.lit "-") 48 ++ LINE_FEED) ;;
  (* Items *)
  items <- get PrintData.items ;;
  forEach items (fun item =>
    let name := Js.substring (PrintItem.name item) 0 20 in (* Truncate long names *)
    let qty := Number.toString (PrintItem.quantity item) in
    currency <- get PrintData.currency ;;
    let price := currency ++ Number.toFixed (PrintItem.price item) 2 in
    let total := currency ++ Number.toFixed (PrintItem.total item) 2 in
    emit (padLine name qty price total ++ LINE_FEED)) ;;
  (* Separator *)
  emit (Js.repeat (Js.lit "-") 48 ++ LINE_FEED) ;;
  (* Totals *)
  emit ALIGN_RIGHT ;;
  currency <- get PrintData.currency ;;
  subtotal <- get PrintData.subtotal ;;
  emit (Js.lit "Subtotal: " ++ currency ++ Number.toFixed subtotal 2 ++ LINE_FEED) ;;
  taxPercentage <- get PrintData.taxPercentage ;;
  tax <- get PrintData.tax ;;
  when (Number.gt0 taxPercentage)
    (emit (Js.lit "Tax (" ++ Number.toString taxPercentage ++ Js.lit "%): "
           ++ currency ++ Number.toFixed tax 2 ++ LINE_FEED)) ;;
  emit BOLD_ON ;;
  total <- get PrintData.total ;;
  emit (Js.lit "TOTAL: " ++ currency ++ Number.toFixed total 2 ++ LINE_FEED) ;;
  emit BOLD_OFF ;;
  (* Footer *)
  emit ALIGN_CENTER ;;
  emit LINE_FEED ;;
  emit (Js.lit "Thank you for your business!" ++ LINE_FEED) ;;
  emit LINE_FEED ;;
  emit LINE_FEED ;;
  (* Cut paper *)
  emit CUT_PAPER.

(** One call [formatReceipt(data)]: [let receipt = ''], the body, then
    [return receipt].  The second component is the object [data] refers to
    once the call has returned. *)
Definition formatReceipt_call (now : Js.str) (data : PrintData.t)
  : Js.str * PrintData.t :=
  let '(_, st) := formatReceipt_body now {| data_obj := data; receipt := [] |} in
  (receipt st, data_obj st).

(** The string [formatReceipt(data)] returns. *)
Definition formatReceipt (now : Js.str) (data : PrintData.t) : Js.str :=
  fst (formatReceipt_call now data).

(** ** The pieces of a receipt, for stating what the formatter emits *)

Definition separator : Js.str := Js.repeat (Js.lit "-") 48 ++ LINE_FEED.

Definition itemRow (currency : Js.str) (item : PrintItem.t) : Js.str :=
  padLine (Js.substring (PrintItem.name item) 0 20)
          (Number.toString (PrintItem.quantity item))
          (currency ++ Number.toFixed (PrintItem.price item) 2)
          (currency ++ Number.toFixed (PrintItem.total item) 2).

Definition taxLine (data : PrintData.t) : Js.str :=
  Js.lit "Tax (" ++ Number.toString (PrintData.taxPercentage data)
  ++ Js.lit "%): " ++ PrintData.currency data
  ++ Number.toFixed (PrintData.tax data) 2.

Definition totalLine (data : PrintData.t) : Js.str :=
  BOLD_ON ++ Js.lit "TOTAL: " ++ PrintData.currency data
  ++ Number.toFixed (PrintData.total data) 2.

Definition receiptHead (now : Js.str) (data : PrintData.t) : Js.str :=
  INIT ++ ESC ++ Js.lit "@" ++ [10%N]
  ++ ALIGN_CENTER ++ SIZE_DOUBLE ++ BOLD_ON
  ++ PrintData.storeName data ++ LINE_FEED
  ++ BOLD_OFF ++ SIZE_NORMAL ++ LINE_FEED
  ++ ALIGN_LEFT ++ separator
  ++ (if truthy (PrintData.customerName data)
      then Js.lit "Customer: " ++ text (PrintData.customerName data) ++ LINE_FEED
      else [])
  ++ (if truthy (PrintData.customerPhone data)
      then Js.lit "Phone: " ++ text (PrintData.customerPhone data) ++ LINE_FEED
      else [])
  ++ Js.lit "Date: " ++ now ++ LINE_FEED
  ++ Js.lit "Payment: " ++ PrintData.paymentMethod data ++ LINE_FEED
  ++ separator
  ++ padLine (Js.lit "Item") (Js.lit "Qty") (Js.lit "Price") (Js.lit "Total")
  ++ LINE_FEED
  ++ separator.

Definition receiptRows (data : PrintData.t) : Js.str :=
  flat_map (fun item => itemRow (PrintData.currency data) item ++ LINE_FEED)
           (PrintData.items data).

Definition receiptFoot (data : PrintData.t) : Js.str :=
  totalLine data ++ LINE_FEED
  ++ BOLD_OFF
  ++ ALIGN_CENTER ++ LINE_FEED
  ++ Js.lit "Thank you for your business!" ++ LINE_FEED
  ++ LINE_FEED ++ LINE_FEED
  ++ CUT_PAPER.

(** ** The plain-text receipt

    [formatTextReceipt] builds the receipt of [printViaRawText] in the same
    way, without printer commands; [now] is what
    [new Date().toLocaleString()] returns during the call. *)
Definition formatTextReceipt_body (now : Js.str) : Fmt unit :=
  (* Store name *)
  storeName <- get PrintData.storeName ;;
  emit (center storeName 48 ++ [10%N]) ;;
  emit (Js.repeat (Js.lit "=") 48 ++ [10%N]) ;;
  (* Customer info *)
  customerName <- get PrintData.customerName ;;
  when (truthy customerName)
    (emit (Js.lit "Customer: " ++ text customerName ++ [10%N])) ;;
  customerPhone <- get PrintData.customerPhone ;;
  when (truthy customerPhone)
    (emit (Js.lit "Phone: " ++ text customerPhone ++ [10%N])) ;;
  emit (Js.lit "Date: " ++ now ++ [10%N]) ;;
  paymentMethod <- get PrintData.paymentMethod ;;
  emit (Js.lit "Payment: " ++ paymentMethod ++ [10%N]) ;;
  emit (Js.repeat (Js.lit "-") 48 ++ [10%N]) ;;
  (* Items *)
  items <- get PrintData.items ;;
  forEach items (fun item =>
    currency <- get PrintData.currency ;;
    let line :=
      Js.padEnd (Js.substring (PrintItem.name item) 0 20) 20
      ++ Js.lit " "
      ++ Js.padStart (Number.toString (PrintItem.quantity item)) 3
      ++ Js.lit " "
      ++ currency ++ Js.padStart (Number.toFixed (PrintItem.price item) 2) 8
      ++ Js.lit " "
      ++ currency ++ Js.padStart (Number.toFixed (PrintItem.total item) 2) 8 in
    emit (line ++ [10%N])) ;;
  emit (Js.repeat (Js.lit "-") 48 ++ [10%N]) ;;
  currency <- get PrintData.currency ;;
  subtotal <- get PrintData.subtotal ;;
  emit (Js.padStart (Js.lit "Subtotal: " ++ currency ++ Number.toFixed subtotal 2) 48
        ++ [10%N]) ;;
  taxPercentage <- get PrintData.taxPercentage ;;
  tax <- get PrintData.tax ;;
  when (Number.gt0 taxPercentage)
    (emit (Js.padStart (Js.lit "Tax (" ++ Number.toString taxPercentage
                        ++ Js.lit "%): " ++ currency ++ Number.toFixed tax 2) 48
           ++ [10%N])) ;;
  total <- get PrintData.total ;;
  emit (Js.padStart (Js.lit "TOTAL: " ++ currency ++ Number.toFixed total 2) 48
        ++ [10%N]) ;;
  emit [10%N] ;;
  emit (center (Js.lit "Thank you for your business!") 48 ++ [10%N]).

(** The string [formatTextReceipt(data)] returns. *)
Definition formatTextReceipt (now : Js.str) (data : PrintData.t) : Js.str :=
  receipt (snd (formatTextReceipt_body now {| data_obj := data; receipt := [] |})).

(** The line of an item in the plain-text receipt. *)
Definition textItemLine (currency : Js.str) (item : PrintItem.t) : Js.str :=
  Js.padEnd (Js.substring (PrintItem.name item) 0 20) 20
  ++ Js.lit " "
  ++ Js.padStart (Number.toString (PrintItem.quantity item)) 3
  ++ Js.lit " "
  ++ currency ++ Js.padStart (Number.toFixed (PrintItem.price item) 2) 8
  ++ Js.lit " "
  ++ currency ++ Js.padStart (Number.toFixed (PrintItem.total item) 2) 8.


(* ===================================================================== *)
(** * The print transports and the orchestrator *)
(* ===================================================================== *)

Import Host.

Section Transports.

Variable host : Host.t.

Local Open Scope io_scope.

(** [new Date().toLocaleString()] *)
Definition toLocaleString : IO Js.str :=
  fun n => {| outcome := Ok (clock host n); reads := S n; trace := [] |}.

(** [this.formatReceipt(data)], reading the clock. *)
Definition formatReceiptIO (data : PrintData.t) : IO Js.str :=
  now <- toLocaleString ;;
  ret (formatReceipt now data).

Definition printViaWebUSB (receiptData : Js.str) : IO unit :=
  method WebUSB
    (if negb (has_usb host)
     then throw (Error (Js.lit "WebUSB not supported"))
     else
       catch
         (call UsbRequestDevice (usb_requestDevice host) ;;
          call UsbOpen (usb_open host) ;;
          call (UsbSelectConfiguration 1) (usb_selectConfiguration host) ;;
          call (UsbClaimInterface 0) (usb_claimInterface host) ;;
          let data := Js.encode receiptData in
          call (UsbTransferOut 1 data) (usb_transferOut host data) ;;
          call UsbClose (usb_close host))
         (fun error =>
            throw (ErrorFrom (Js.lit "WebUSB print failed: ") error))).

Definition printViaAndroidIntent (receiptData : Js.str) : IO unit :=
  method AndroidIntent
    ((* For Android POS systems *)
     if has_Android host
     then call (AndroidPrint receiptData) (Android_print host receiptData)
     else
       (* Try Android Intent *)
       if has_androidIntent host
       then call (AndroidIntentPrint receiptData)
                 (androidIntent_print host receiptData)
       else throw (Error (Js.lit "Android print interface not available"))).

Definition printViaWindowsPrint (receiptData : Js.str) : IO unit :=
  method WindowsPrint
    (if has_external host && has_external_print host
     then call (ExternalPrint receiptData) (external_print host receiptData)
     else throw (Error (Js.lit "Windows print interface not available"))).

Definition printerIPs : list Js.str :=
  [Js.lit "192.168.1.100"; Js.lit "192.168.0.100"; Js.lit "10.0.0.100"].

Definition printerURL (ip : Js.str) : Js.str :=
  Js.lit "http://" ++ ip ++ Js.lit ":9100".

(** [await fetch(url, { method: 'POST', body })], giving [response.ok]. *)
Definition doFetch (url body : Js.str) : IO bool :=
  fun n => {| outcome := match fetch host url body with
                         | Rejects => Thrown Rejected
                         | Response ok => Ok ok
                         end;
              reads := n; trace := [Fetch url body] |}.

(** The loop over [printerIPs] and the [throw] after it. *)
Fixpoint tryPrinterIPs (ips : list Js.str) (receiptData : Js.str) : IO unit :=
  match ips with
  | [] => throw (Error (Js.lit "Raw socket print failed"))
  | ip :: rest =>
      done <- catch (doFetch (printerURL ip) receiptData) (fun _ => ret false) ;;
      if done then ret tt else tryPrinterIPs rest receiptData
  end.

Definition printViaRawSocket (receiptData : Js.str) : IO unit :=
  method RawSocket (tryPrinterIPs printerIPs receiptData).

(** The loop over [methods] of [printViaPOSCommand] and the [throw] after it. *)
Fixpoint tryMethods (methods : list (IO unit)) : IO unit :=
  match methods with
  | [] => throw (Error (Js.lit "All POS print methods failed"))
  | m :: rest => catch m (fun _ => tryMethods rest)
  end.

Definition printViaPOSCommand (data : PrintData.t) : IO unit :=
  receiptData <- formatReceiptIO data ;;
  (* Try direct printer communication via various methods *)
  tryMethods [ printViaWebUSB receiptData;
               printViaAndroidIntent receiptData;
               printViaWindowsPrint receiptData;
               printViaRawSocket receiptData ].

Definition baudRates : list Z := [9600; 115200; 38400; 19200]%Z.

(** The loop over [baudRates], giving [connected]. *)
Fixpoint tryBaudRates (rates : list Z) : IO bool :=
  match rates with
  | [] => ret false
  | baudRate :: rest =>
      connected <- catch (call (PortOpen baudRate) (port_open host baudRate) ;; ret true)
                         (fun _ => ret false) ;;
      if connected then ret true else tryBaudRates rest
  end.

Definition chunkSize : nat := 64.

(** [dataArray.slice(i, j)] for [i <= j]. *)
Definition slice (dataArray : list N) (i j : nat) : list N :=
  firstn (j - i) (skipn i dataArray).

(** [for (let i = ...; i < dataArray.length; i += chunkSize)]: write the
    chunk at [i], pause, go on. *)
Equations writeChunks (dataArray : list N) (i : nat) : IO unit
  by wf (List.length dataArray - i) lt :=
  writeChunks dataArray i with lt_dec i (List.length dataArray) => {
    | left _ =>
        let chunk := slice dataArray i (i + chunkSize) in
        bind (call (WriterWrite chunk (writer_write host i chunk))
                   (writer_write host i chunk))
             (fun _ => bind (call (Delay 10) true)
                            (fun _ => writeChunks dataArray (i + chunkSize)))
    | right _ => ret tt }.
Next Obligation. unfold chunkSize. lia. Qed.

Definition printViaSerial (data : PrintData.t) : IO unit :=
  method Serial
    (catch
       (call SerialRequestPort (serial_requestPort host) ;;
        (* Try common POS printer baud rates *)
        connected <- tryBaudRates baudRates ;;
        if negb connected
        then throw (Error (Js.lit "Could not establish serial connection"))
        else
          call GetWriter (port_getWriter host) ;;
          receiptData <- formatReceiptIO data ;;
          (* Convert string to Uint8Array and send in chunks *)
          let dataArray := Js.encode receiptData in
          writeChunks dataArray 0 ;;
          call ReleaseLock true ;;
          call PortClose (port_close host))
       (fun error =>
          throw (ErrorFrom (Js.lit "Serial printing failed: ") error))).

(** [receiptHTML] is a template literal over [data] and the date; then
    [window.open], which gives a window or null, and the write into the
    document of the window when there is one. *)
Definition printViaBrowser (data : PrintData.t) : IO unit :=
  method Browser
    (now <- toLocaleString ;;
     call WindowOpen true ;;
     if window_open host
     then call (DocumentWrite now data) true ;;
          call DocumentClose true
     else ret tt).

Definition print (data : PrintData.t) : IO unit :=
  catch
    ((* Try multiple printing methods for POS compatibility *)
     printViaPOSCommand data)
    (fun error =>
       catch
         ((* Try Web Serial API *)
          if has_serial host
          then printViaSerial data
          else throw (Error (Js.lit "Serial API not available")))
         (fun serialError =>
            (* Final fallback to browser print *)
            printViaBrowser data)).

End Transports.

End POSPrinter.

(* ===================================================================== *)
(** * The sales screen ([src/components/Sales/SalesInterface.tsx]) *)
(* ===================================================================== *)

(** The cart of the sales screen and [printBill], the caller of
    [POSPrinter.print].  A handler reads the cart of the render it belongs
    to and replaces it with [setCart]; it is a function from that cart to the
    next one, together with the toast it raises. *)
Module SalesInterface.

Module Inventory.
Record t := { quantity_in_stock : Number.t }.
End Inventory.

Module Product.
Record t := {
  id : Js.str;
  name : Js.str;
  price : Number.t;
  unit : Js.str;
  inventory : option Inventory.t }.   (* read with [?.] *)
End Product.

Module CartItem.
Record t := {
  id : Js.str;
  name : Js.str;
  price : Number.t;
  unit : Js.str;
  inventory : option Inventory.t;
  quantity : Number.t;
  total : Number.t }.
End CartItem.

Module StoreSettings.
Record t := {
  tax_percentage : Number.t;
  store_name : Js.str;
  currency : Js.str }.
End StoreSettings.

Module Toast.
Record t := {
  title : Js.str;
  description : Js.str;
  destructive : bool }.
End Toast.

(** [x || d] for a number that may be missing: [undefined], [0], [-0] and
    [NaN] are falsy. *)
Definition number_or (x : option Number.t) (d : Number.t) : Number.t :=
  match x with
  | Some v => if PrimFloat.is_zero v || PrimFloat.is_nan v then d else v
  | None => d
  end.

(** [s || d] for a string: the empty string is falsy. *)
Definition string_or (s d : Js.str) : Js.str :=
  match s with
  | [] => d
  | _ :: _ => s
  end.

(** [product.inventory?.quantity_in_stock || 0] *)
Definition availableStock (product : Product.t) : Number.t :=
  number_or (option_map Inventory.quantity_in_stock (Product.inventory product)) 0%float.

Definition removeFromCart (cart : list CartItem.t) (productId : Js.str)
  : list CartItem.t :=
  filter (fun item => negb (Js.eqb (CartItem.id item) productId)) cart.

Definition updateCartQuantity (cart : list CartItem.t) (productId : Js.str)
  (newQuantity : Number.t) : list CartItem.t :=
  if PrimFloat.leb newQuantity 0%float
  then removeFromCart cart productId
  else
    map (fun item =>
           if Js.eqb (CartItem.id item) productId
           then {| CartItem.id := CartItem.id item;
                   CartItem.name := CartItem.name item;
                   CartItem.price := CartItem.price item;
                   CartItem.unit := CartItem.unit item;
                   CartItem.inventory := CartItem.inventory item;
                   CartItem.quantity := newQuantity;
                   CartItem.total := PrimFloat.mul (CartItem.price item) newQuantity |}
           else item)
        cart.

(** [addToCart(product, quantity)]; the button of a product calls it with the
    default quantity 1. *)
Definition addToCart (cart : list CartItem.t) (product : Product.t)
  (quantity : Number.t) : list CartItem.t * option Toast.t :=
  let existingItem :=
    find (fun item => Js.eqb (CartItem.id item) (Product.id product)) cart in
  let currentQuantity :=
    match existingItem with
    | Some item => CartItem.quantity item
    | None => 0%float
    end in
  if PrimFloat.ltb (availableStock product) (PrimFloat.add currentQuantity quantity)
  then
    (cart,
     Some {| Toast.title := Js.lit "Insufficient Stock";
             Toast.description :=
               Js.lit "Only " ++ Number.toString (availableStock product)
               ++ Js.lit " " ++ Product.unit product ++ Js.lit " available";
             Toast.destructive := true |})
  else
    match existingItem with
    | Some _ =>
        (updateCartQuantity cart (Product.id product)
           (PrimFloat.add currentQuantity quantity), None)
    | None =>
        (cart ++ [ {| CartItem.id := Product.id product;
                      CartItem.name := Product.name product;
                      CartItem.price := Product.price product;
                      CartItem.unit := Product.unit product;
                      CartItem.inventory := Product.inventory product;
                      CartItem.quantity := quantity;
                      CartItem.total := PrimFloat.mul (Product.price product) quantity |} ],
         None)
    end.

Definition calculateSubtotal (cart : list CartItem.t) : Number.t :=
  fold_left (fun sum item => PrimFloat.add sum (CartItem.total item)) cart 0%float.

Definition calculateTotal (cart : list CartItem.t) : Number.t :=
  calculateSubtotal cart.

(** The state of the screen that [printBill] reads. *)
Record State := {
  cart : list CartItem.t;
  customerName : Js.str;
  customerPhone : Js.str;
  paymentMethod : Js.str;
  settings : StoreSettings.t }.

(** The object [printBill] hands to [POSPrinter.print]. *)
Definition printData (st : State) : PrintData.t := {|
  PrintData.storeName := StoreSettings.store_name (settings st);
  PrintData.customerName := Some (string_or (customerName st) (Js.lit "Walk-in"));
  PrintData.customerPhone := Some (string_or (customerPhone st) []);
  PrintData.items :=
    map (fun item => {| PrintItem.name := CartItem.name item;
                        PrintItem.quantity := CartItem.quantity item;
                        PrintItem.price := CartItem.price item;
                        PrintItem.total := CartItem.total item |})
        (cart st);
  PrintData.subtotal := calculateSubtotal (cart st);
  PrintData.tax :=
    PrimFloat.div
      (PrimFloat.mul (calculateSubtotal (cart st))
                     (StoreSettings.tax_percentage (settings st)))
      100%float;
  PrintData.taxPercentage := StoreSettings.tax_percentage (settings st);
  PrintData.total := calculateTotal (cart st);
  PrintData.currency := [8377%N];   (* the rupee sign *)
  PrintData.paymentMethod := paymentMethod st |}.




End SalesInterface.

(* ===================================================================== *)
(** * Vocabulary of the properties *)
(* ===================================================================== *)

Import Host POSPrinter.

(** The four columns of a row of [padLine]. *)
Inductive Column := ItemCol | QtyCol | PriceCol | TotalCol.

Definition width (c : Column) : nat :=
  match c with
  | ItemCol => col1Width
  | QtyCol => col2Width
  | PriceCol => col3Width
  | TotalCol => col4Width
  end.

Definition offset (c : Column) : nat :=
  match c with
  | ItemCol => 0
  | QtyCol => col1Width
  | PriceCol => col1Width + col2Width
  | TotalCol => col1Width + col2Width + col3Width
  end.

(** The part of a row that lies in a column. *)
Definition column (c : Column) (row : Js.str) : Js.str :=
  Js.substring row (offset c) (offset c + width c).

(** The argument of [padLine] that goes to a column. *)
Definition cell (c : Column) (col1 col2 col3 col4 : Js.str) : Js.str :=
  match c with
  | ItemCol => col1
  | QtyCol => col2
  | PriceCol => col3
  | TotalCol => col4
  end.

(** The character [c] does not occur in [s]. *)
Definition avoids (c : Js.char16) (s : Js.str) : Prop := ~ In c s.


(** The characters a rendered number is made of: digits, point, signs, the
    exponent mark, and the letters of [NaN] and [Infinity]. *)
Definition numeric (c : Js.char16) : Prop :=
  In c (Js.lit "0123456789.-+eNaInfity").

(** The texts the caller supplies in a receipt. *)
Definition callerTexts (data : PrintData.t) : list Js.str :=
  PrintData.storeName data
  :: text (PrintData.customerName data)
  :: text (PrintData.customerPhone data)
  :: PrintData.paymentMethod data
  :: PrintData.currency data
  :: map PrintItem.name (PrintData.items data).


(** The transports left during a run, in order, with their success. *)
Definition returns (tr : list Event) : list (Strategy * bool) :=
  flat_map (fun e => match e with Return s ok => [(s, ok)] | _ => [] end) tr.

(** The addresses posted to, in order. *)
Definition fetched (tr : list Event) : list Js.str :=
  flat_map (fun e => match e with Fetch url _ => [url] | _ => [] end) tr.

(** The chunks handed to [writer.write], in order, with their success. *)
Definition writes (tr : list Event) : list (list N * bool) :=
  flat_map (fun e => match e with WriterWrite c ok => [(c, ok)] | _ => [] end) tr.

(** The byte arrays handed to [device.transferOut]. *)
Definition transfers (tr : list Event) : list (list N) :=
  flat_map (fun e => match e with UsbTransferOut _ b => [b] | _ => [] end) tr.


(** An event that neither enters nor leaves a transport. *)
Definition inner (e : Event) : Prop :=
  match e with
  | Call _ | Return _ _ => False
  | _ => True
  end.

(** What an event that hands receipt bytes to a device carries, when [first]
    is the receipt [printViaPOSCommand] formatted and [second] the one
    [printViaSerial] formatted. *)
Definition delivers (first second : Js.str) (e : Event) : Prop :=
  match e with
  | UsbTransferOut _ bytes => bytes = Js.encode first
  | AndroidPrint payload => payload = first
  | AndroidIntentPrint payload => payload = first
  | ExternalPrint payload => payload = first
  | Fetch _ body => body = first
  | WriterWrite chunk _ =>
      exists i, chunk = slice (Js.encode second) i (i + chunkSize)
  | _ => True
  end.

(** An event of the transport [s] alone: it is of the device of [s], and what
    it carries is the receipt meant for it. *)
Definition touches (s : Strategy) (first second : Js.str) (e : Event) : Prop :=
  match e with
  | Call _ | Return _ _ => False
  | UsbRequestDevice | UsbOpen | UsbSelectConfiguration _
  | UsbClaimInterface _ | UsbClose => s = WebUSB
  | UsbTransferOut _ bytes => s = WebUSB /\ bytes = Js.encode first
  | AndroidPrint payload | AndroidIntentPrint payload =>
      s = AndroidIntent /\ payload = first
  | ExternalPrint payload => s = WindowsPrint /\ payload = first
  | Fetch url body =>
      s = RawSocket /\ In url (map printerURL printerIPs) /\ body = first
  | SerialRequestPort | PortOpen _ | GetWriter | Delay _
  | ReleaseLock | PortClose => s = Serial
  | WriterWrite chunk _ =>
      s = Serial /\ exists i, chunk = slice (Js.encode second) i (i + chunkSize)
  | WindowOpen | DocumentWrite _ _ | DocumentClose => s = Browser
  end.

(** A run that is one attempt of the transport [s]: entered, then events of
    [s] alone, then left with the outcome of the run. *)
Definition attempt_of (s : Strategy) (first second : Js.str) (r : Run unit) : Prop :=
  exists evs,
    trace r = Call s :: evs ++ [Return s (is_ok (outcome r))]
    /\ Forall (touches s first second) evs.


(** A computation that does not read the clock. *)
Definition Still {A} (m : IO A) : Prop := forall n, reads (m n) = n.

(** A computation all of whose events satisfy [P], which may depend on the
    number of clock readings at its start. *)
Definition Emits {A} (P : nat -> Event -> Prop) (m : IO A) : Prop :=
  forall n, Forall (P n) (trace (m n)).

(** The elements of a list up to and including the first that satisfies [p]. *)
Fixpoint through {A} (p : A -> bool) (l : list A) : list A :=
  match l with
  | [] => []
  | x :: l' => x :: if p x then [] else through p l'
  end.

(** A response arrived and its [ok] is true. *)
Definition answers_ok (f : Fetched) : bool :=
  match f with
  | Response ok => ok
  | Rejects => false
  end.

(** The baud rates [port.open] was called with, in order. *)
Definition opened (tr : list Event) : list Z :=
  flat_map (fun e => match e with PortOpen b => [b] | _ => [] end) tr.

(** The line feed, which ends a line of a receipt. *)
Definition newline : Js.char16 := 10%N.

(** A character that is not a control character. *)
Definition printable (c : Js.char16) : Prop := (32 <= c)%N.

(** The lines of the ESC/POS receipt, each with the printer commands sent
    on it. *)
Definition receiptLines (now : Js.str) (data : PrintData.t) : list Js.str :=
  [ INIT ++ ESC ++ Js.lit "@";
    ALIGN_CENTER ++ SIZE_DOUBLE ++ BOLD_ON ++ PrintData.storeName data;
    BOLD_OFF ++ SIZE_NORMAL;
    ALIGN_LEFT ++ Js.repeat (Js.lit "-") 48 ]
  ++ (if truthy (PrintData.customerName data)
      then [Js.lit "Customer: " ++ text (PrintData.customerName data)]
      else [])
  ++ (if truthy (PrintData.customerPhone data)
      then [Js.lit "Phone: " ++ text (PrintData.customerPhone data)]
      else [])
  ++ [ Js.lit "Date: " ++ now;
       Js.lit "Payment: " ++ PrintData.paymentMethod data;
       Js.repeat (Js.lit "-") 48;
       padLine (Js.lit "Item") (Js.lit "Qty") (Js.lit "Price") (Js.lit "Total");
       Js.repeat (Js.lit "-") 48 ]
  ++ map (itemRow (PrintData.currency data)) (PrintData.items data)
  ++ [ Js.repeat (Js.lit "-") 48;
       ALIGN_RIGHT ++ Js.lit "Subtotal: " ++ PrintData.currency data
       ++ Number.toFixed (PrintData.subtotal data) 2 ]
  ++ (if Number.gt0 (PrintData.taxPercentage data) then [taxLine data] else [])
  ++ [ totalLine data;
       BOLD_OFF ++ ALIGN_CENTER;
       Js.lit "Thank you for your business!";
       [];
       [] ]
  ++ [ CUT_PAPER ].

(** The lines of the plain-text receipt. *)
Definition textReceiptLines (now : Js.str) (data : PrintData.t) : list Js.str :=
  [ center (PrintData.storeName data) 48;
    Js.repeat (Js.lit "=") 48 ]
  ++ (if truthy (PrintData.customerName data)
      then [Js.lit "Customer: " ++ text (PrintData.customerName data)]
      else [])
  ++ (if truthy (PrintData.customerPhone data)
      then [Js.lit "Phone: " ++ text (PrintData.customerPhone data)]
      else [])
  ++ [ Js.lit "Date: " ++ now;
       Js.lit "Payment: " ++ PrintData.paymentMethod data;
       Js.repeat (Js.lit "-") 48 ]
  ++ map (textItemLine (PrintData.currency data)) (PrintData.items data)
  ++ [ Js.repeat (Js.lit "-") 48;
       Js.padStart (Js.lit "Subtotal: " ++ PrintData.currency data
                    ++ Number.toFixed (PrintData.subtotal data) 2) 48 ]
  ++ (if Number.gt0 (PrintData.taxPercentage data)
      then [Js.padStart (taxLine data) 48]
      else [])
  ++ [ Js.padStart (Js.lit "TOTAL: " ++ PrintData.currency data
                    ++ Number.toFixed (PrintData.total data) 2) 48;
       [];
       center (Js.lit "Thank you for your business!") 48 ]
  ++ [ [] ].

(** The characters of the labels [formatReceipt] writes. *)
Definition receiptLabels : Js.str :=
  Js.lit "- "
  ++ Js.lit "Customer: Phone: Date: Payment: "
  ++ Js.lit "Item Qty Price Total "
  ++ Js.lit "Subtotal: Tax (%): TOTAL: "
  ++ Js.lit "Thank you for your business!".

(** The characters [formatReceipt] writes of its own accord: the bytes of the
    printer commands it uses, and the characters of its labels. *)
Definition receiptAlphabet : Js.str :=
  INIT ++ ALIGN_CENTER ++ ALIGN_LEFT ++ ALIGN_RIGHT ++ BOLD_ON ++ BOLD_OFF
  ++ SIZE_NORMAL ++ SIZE_DOUBLE ++ CUT_PAPER
  ++ receiptLabels.

(** The characters [formatTextReceipt] writes of its own accord. *)
Definition textAlphabet : Js.str :=
  Js.lit "=- "
  ++ Js.lit "Customer: Phone: Date: Payment: "
  ++ Js.lit "Subtotal: Tax (%): TOTAL: "
  ++ Js.lit "Thank you for your business!".

(** Where a character of a receipt can come from: the alphabet of the
    formatter, a rendered number, the date, or a text of the caller. *)
Definition origin (alphabet now : Js.str) (data : PrintData.t) (c : Js.char16)
  : Prop :=
  In c alphabet \/ numeric c \/ In c now \/ Exists (In c) (callerTexts data).

(** An event of the loop that writes the chunks: a write, or the pause
    after it. *)
Definition writing (e : Event) : Prop :=
  match e with
  | WriterWrite _ _ | Delay _ => True
  | _ => False
  end.

(** A line of the cart whose total is its price times its quantity. *)
Definition priced (item : SalesInterface.CartItem.t) : Prop :=
  SalesInterface.CartItem.total item
  = PrimFloat.mul (SalesInterface.CartItem.price item)
                  (SalesInterface.CartItem.quantity item).

(** The product ids of the lines of a cart, in order. *)
Definition ids (cart : list SalesInterface.CartItem.t) : list Js.str :=
  map SalesInterface.CartItem.id cart.

(** The lines of a cart for one product. *)
Definition linesOf (productId : Js.str) (cart : list SalesInterface.CartItem.t)
  : list SalesInterface.CartItem.t :=
  filter (fun item => Js.eqb (SalesInterface.CartItem.id item) productId) cart.

(** No ESC of the text is followed by the letter p, and the text does not
    end with ESC: it holds no start of the command that opens the cash
    drawer, and can be put before any such text. *)
Fixpoint kickless (s : Js.str) : bool :=
  match s with
  | [] => true
  | c :: s' =>
      if (c =? 27)%N
      then match s' with
           | [] => false
           | d :: _ => negb (d =? 112)%N && kickless s'
           end
      else kickless s'
  end.

(* ===================================================================== *)
(** * Scenarios *)
(* ===================================================================== *)

(** The rupee sign, U+20B9. *)
Definition rupee : Js.str := [8377%N].

Definition noon : Js.str := Js.lit "11/2/2026, 12:00:00 PM".

Definition turmeric : PrintItem.t := {|
  PrintItem.name := Js.lit "Turmeric Powder";
  PrintItem.quantity := 2%float;
  PrintItem.price := 45.0%float;
  PrintItem.total := 90.0%float |}.

Definition masaleReceipt : PrintData.t := {|
  PrintData.storeName := Js.lit "Krushnkamal Masale";
  PrintData.customerName := None;
  PrintData.customerPhone := None;
  PrintData.items := [turmeric];
  PrintData.subtotal := 90.0%float;
  PrintData.tax := 16.2%float;
  PrintData.taxPercentage := 18%float;
  PrintData.total := 106.2%float;
  PrintData.currency := rupee;
  PrintData.paymentMethod := Js.lit "cash" |}.



(** An item whose name has 30 characters. *)
Definition longNamed : PrintItem.t := {|
  PrintItem.name := Js.lit "Kashmiri Red Chilli Powder 50g";
  PrintItem.quantity := 1%float;
  PrintItem.price := 120.0%float;
  PrintItem.total := 120.0%float |}.

(** A sale of that item alone. *)
Definition chilliReceipt : PrintData.t := {|
  PrintData.storeName := Js.lit "Krushnkamal Masale";
  PrintData.customerName := None;
  PrintData.customerPhone := None;
  PrintData.items := [longNamed];
  PrintData.subtotal := 120.0%float;
  PrintData.tax := 0%float;
  PrintData.taxPercentage := 0%float;
  PrintData.total := 120.0%float;
  PrintData.currency := rupee;
  PrintData.paymentMethod := Js.lit "cash" |}.

(** An item whose quantity and amounts are wider than their columns. *)
Definition bulkOrder : PrintItem.t := {|
  PrintItem.name := Js.lit "Saffron";
  PrintItem.quantity := 12345%float;
  PrintItem.price := 2500.5%float;
  PrintItem.total := 30868672.5%float |}.


(** A host whose USB printer rejects the transfer and whose serial printer
    answers at 38400 baud; the clock has moved on a second between the two
    attempts. *)
Definition serialHost : Host.t := {|
  clock := fun n => match n with
                    | 0 => Js.lit "11/2/2026, 12:00:00 PM"
                    | _ => Js.lit "11/2/2026, 12:00:01 PM"
                    end;
  has_usb := true;
  usb_requestDevice := true;
  usb_open := true;
  usb_selectConfiguration := true;
  usb_claimInterface := true;
  usb_transferOut := fun _ => false;
  usb_close := true;
  has_Android := false;
  Android_print := fun _ => false;
  has_androidIntent := false;
  androidIntent_print := fun _ => false;
  has_external := false;
  has_external_print := false;
  external_print := fun _ => false;
  fetch := fun _ _ => Rejects;
  has_serial := true;
  serial_requestPort := true;
  port_open := fun baudRate => (baudRate =? 38400)%Z;
  port_getWriter := true;
  writer_write := fun _ _ => true;
  port_close := true;
  window_open := true |}.

(** A host whose USB printer takes the bytes but whose [device.close()]
    then fails, on an Android till whose bridge prints. *)
Definition closeFailsHost : Host.t := {|
  clock := fun _ => noon;
  has_usb := true;
  usb_requestDevice := true;
  usb_open := true;
  usb_selectConfiguration := true;
  usb_claimInterface := true;
  usb_transferOut := fun _ => true;
  usb_close := false;
  has_Android := true;
  Android_print := fun _ => true;
  has_androidIntent := false;
  androidIntent_print := fun _ => false;
  has_external := false;
  has_external_print := false;
  external_print := fun _ => false;
  fetch := fun _ _ => Rejects;
  has_serial := false;
  serial_requestPort := false;
  port_open := fun _ => false;
  port_getWriter := false;
  writer_write := fun _ _ => false;
  port_close := false;
  window_open := false |}.

(** Two products of the shop, and a product without an inventory row. *)
Definition turmericPowder : SalesInterface.Product.t := {|
  SalesInterface.Product.id := Js.lit "p-1";
  SalesInterface.Product.name := Js.lit "Turmeric Powder";
  SalesInterface.Product.price := 45.0%float;
  SalesInterface.Product.unit := Js.lit "pkt";
  SalesInterface.Product.inventory :=
    Some {| SalesInterface.Inventory.quantity_in_stock := 10%float |} |}.

Definition chilliPowder : SalesInterface.Product.t := {|
  SalesInterface.Product.id := Js.lit "p-2";
  SalesInterface.Product.name := Js.lit "Kashmiri Red Chilli Powder 50g";
  SalesInterface.Product.price := 120.0%float;
  SalesInterface.Product.unit := Js.lit "pkt";
  SalesInterface.Product.inventory :=
    Some {| SalesInterface.Inventory.quantity_in_stock := 3%float |} |}.

Definition unlisted : SalesInterface.Product.t := {|
  SalesInterface.Product.id := Js.lit "p-3";
  SalesInterface.Product.name := Js.lit "Saffron";
  SalesInterface.Product.price := 2500.5%float;
  SalesInterface.Product.unit := Js.lit "g";
  SalesInterface.Product.inventory := None |}.

(** The cart after two packets of turmeric and one of chilli were added. *)
Definition twoLines : list SalesInterface.CartItem.t :=
  fst (SalesInterface.addToCart
         (fst (SalesInterface.addToCart
                 (fst (SalesInterface.addToCart [] turmericPowder 1%float))
                 chilliPowder 1%float))
         turmericPowder 1%float).

(** The sales screen with that cart, no customer entered, and the settings
    the screen starts with. *)
Definition counterSale : SalesInterface.State := {|
  SalesInterface.cart := twoLines;
  SalesInterface.customerName := [];
  SalesInterface.customerPhone := [];
  SalesInterface.paymentMethod := Js.lit "cash";
  SalesInterface.settings := {|
    SalesInterface.StoreSettings.tax_percentage := 18%float;
    SalesInterface.StoreSettings.store_name := Js.lit "Masala Shop";
    SalesInterface.StoreSettings.currency := Js.lit "INR" |} |}.

(** The line of the chilli once all three packets in stock are in the cart. *)
Definition threeChilli : SalesInterface.CartItem.t := {|
  SalesInterface.CartItem.id := Js.lit "p-2";
  SalesInterface.CartItem.name := Js.lit "Kashmiri Red Chilli Powder 50g";
  SalesInterface.CartItem.price := 120.0%float;
  SalesInterface.CartItem.unit := Js.lit "pkt";
  SalesInterface.CartItem.inventory :=
    Some {| SalesInterface.Inventory.quantity_in_stock := 3%float |};
  SalesInterface.CartItem.quantity := 3%float;
  SalesInterface.CartItem.total := 360%float |}.


(* ===================================================================== *)
(** * Facts about JavaScript strings *)
(* ===================================================================== *)

Section JsFacts.

Lemma substring_from_0 (s : Js.str) (w : nat) : Js.substring s 0 w = firstn w s.
Proof.
  unfold Js.substring, Js.len. cbn [Nat.min Nat.max skipn].
  rewrite Nat.sub_0_r.
  destruct (Nat.le_ge_cases w (List.length s)) as [Hle | Hge].
  - now rewrite Nat.min_l.
  - rewrite Nat.min_r by assumption.
    now rewrite !firstn_all2 by lia.
Qed.

Lemma substring_middle (pre mid post : Js.str) :
  Js.substring (pre ++ mid ++ post) (List.length pre)
               (List.length pre + List.length mid) = mid.
Proof.
  unfold Js.substring, Js.len. rewrite !length_app.
  rewrite (Nat.min_l (List.length pre)) by lia.
  rewrite (Nat.min_l (List.length pre + List.length mid)) by lia.
  rewrite Nat.min_l, Nat.max_r by lia.
  replace (List.length pre + List.length mid - List.length pre)
    with (List.length mid) by lia.
  rewrite skipn_app, Nat.sub_diag, skipn_all. cbn [skipn app].
  rewrite firstn_app, Nat.sub_diag, firstn_all. cbn [firstn]. apply app_nil_r.
Qed.

Lemma substring_at (pre mid post : Js.str) (a m : nat) :
  List.length pre = a -> List.length mid = m ->
  Js.substring (pre ++ mid ++ post) a (a + m) = mid.
Proof. intros <- <-. apply substring_middle. Qed.

Lemma padEnd_fit_length (s : Js.str) (w : nat) :
  List.length (Js.substring (Js.padEnd s w) 0 w) = w.
Proof.
  rewrite substring_from_0, length_firstn.
  unfold Js.padEnd, Js.len. rewrite length_app, repeat_length. lia.
Qed.

Lemma padStart_fit_length (s : Js.str) (w : nat) :
  List.length (Js.substring (Js.padStart s w) 0 w) = w.
Proof.
  rewrite substring_from_0, length_firstn.
  unfold Js.padStart, Js.len. rewrite length_app, repeat_length. lia.
Qed.

Lemma padEnd_fit_overflow (s : Js.str) (w : nat) :
  w <= Js.len s -> Js.substring (Js.padEnd s w) 0 w = firstn w s.
Proof.
  intros Hw. rewrite substring_from_0. unfold Js.padEnd.
  replace (w - Js.len s) with 0 by lia. cbn [List.repeat].
  now rewrite app_nil_r.
Qed.

Lemma padStart_fit_overflow (s : Js.str) (w : nat) :
  w <= Js.len s -> Js.substring (Js.padStart s w) 0 w = firstn w s.
Proof.
  intros Hw. rewrite substring_from_0. unfold Js.padStart.
  replace (w - Js.len s) with 0 by lia. reflexivity.
Qed.

Lemma in_firstn_in {A} (x : A) n (l : list A) : In x (firstn n l) -> In x l.
Proof.
  intros H. rewrite <- (firstn_skipn n l). apply in_or_app. now left.
Qed.

Lemma in_skipn_in {A} (x : A) n (l : list A) : In x (skipn n l) -> In x l.
Proof.
  intros H. rewrite <- (firstn_skipn n l). apply in_or_app. now right.
Qed.

Lemma in_repeat_eq {A} (x y : A) n : In x (List.repeat y n) -> x = y.
Proof. intros H. exact (repeat_spec n y x H). Qed.

(** A character of a fitted column comes from the text or is a space. *)
Lemma in_padEnd_fit c (s : Js.str) w :
  In c (Js.substring (Js.padEnd s w) 0 w) -> In c s \/ c = Js.space.
Proof.
  rewrite substring_from_0. intros H. apply in_firstn_in in H.
  unfold Js.padEnd in H. apply in_app_or in H as [H | H]; [now left | right].
  eapply in_repeat_eq; eassumption.
Qed.

Lemma in_padStart_fit c (s : Js.str) w :
  In c (Js.substring (Js.padStart s w) 0 w) -> In c s \/ c = Js.space.
Proof.
  rewrite substring_from_0. intros H. apply in_firstn_in in H.
  unfold Js.padStart in H. apply in_app_or in H as [H | H]; [right | now left].
  eapply in_repeat_eq; eassumption.
Qed.

Lemma in_substring c (s : Js.str) a b : In c (Js.substring s a b) -> In c s.
Proof.
  unfold Js.substring. intros H.
  apply in_firstn_in in H. now apply in_skipn_in in H.
Qed.


Lemma Includes_app_l (s u t : Js.str) : Js.Includes s t -> Js.Includes (u ++ s) t.
Proof.
  intros (pre & post & ->). exists (u ++ pre), post. now rewrite app_assoc.
Qed.

Lemma Includes_app_r (s u t : Js.str) : Js.Includes s t -> Js.Includes (s ++ u) t.
Proof.
  intros (pre & post & ->). exists pre, (post ++ u). now rewrite <- !app_assoc.
Qed.

Lemma Includes_prefix (t u : Js.str) : Js.Includes (t ++ u) t.
Proof. exists [], u. reflexivity. Qed.



End JsFacts.

(* ===================================================================== *)
(** * Facts about rendered numbers *)
(* ===================================================================== *)

(** Split a membership over appends and conditionals, then close each leaf. *)
Ltac break_in H :=
  match type of H with
  | In _ (_ ++ _) => apply in_app_or in H; destruct H as [H | H]; break_in H
  | In _ (if ?b then _ else _) => destruct b; break_in H
  | In _ [] => destruct H
  | _ => idtac
  end.

Ltac literal H :=
  cbn in H; repeat (destruct H as [<- | H]; [unfold numeric; cbn; tauto |]);
  destruct H.

Section NumberFacts.

Lemma numeric_of_uint c u : In c (Number.of_uint u) -> numeric c.
Proof.
  induction u; cbn [Number.of_uint In]; intros H; [destruct H | ..];
    (destruct H as [<- | H]; [unfold numeric; cbn; tauto | auto]).
Qed.

Lemma numeric_decimal c n : In c (Number.decimal n) -> numeric c.
Proof. apply numeric_of_uint. Qed.

Lemma numeric_zeros c n : In c (Number.zeros n) -> numeric c.
Proof.
  intros H. apply in_repeat_eq in H. subst c. unfold numeric; cbn; tauto.
Qed.

Lemma numeric_render c s p : In c (Number.render s p) -> numeric c.
Proof.
  unfold Number.render. intros H.
  destruct (Number.decimal s) as [| d ds] eqn:E.
  - break_in H; try literal H; eauto using numeric_zeros, numeric_decimal.
    all: try (apply in_firstn_in in H; destruct H).
    all: try (apply in_skipn_in in H; destruct H).
  - assert (Hd : forall x, In x (d :: ds) -> numeric x)
      by (intros x Hx; apply (numeric_decimal x s); now rewrite E).
    break_in H; try literal H; eauto using numeric_zeros, numeric_decimal.
    all: try (apply in_firstn_in in H; now apply Hd).
    all: try (apply in_skipn_in in H; now apply Hd).
    all: try (subst; apply Hd; cbn; tauto).
    all: try (apply Hd; cbn in H |- *; tauto).
    all: destruct H as [<- | H];
      [unfold numeric; cbn; tauto | apply Hd; cbn; tauto].
Qed.

Lemma numeric_toString c (x : Number.t) : In c (Number.toString x) -> numeric c.
Proof.
  unfold Number.toString. intros H.
  destruct (Prim2SF x) as [| neg | | neg m e].
  - literal H.
  - break_in H; literal H.
  - literal H.
  - destruct (Number.shortest m e) as [s p].
    break_in H; try literal H; eauto using numeric_render.
Qed.

Lemma numeric_toFixed c (x : Number.t) f : In c (Number.toFixed x f) -> numeric c.
Proof.
  unfold Number.toFixed. intros H.
  destruct (Prim2SF x) as [| neg | | neg m e].
  - break_in H; try literal H; eauto using numeric_zeros.
  - break_in H; literal H.
  - literal H.
  - destruct (if (0 <=? e)%Z then _ else _) as [num dn].
    destruct (Number.shortest m e) as [s p].
    break_in H; try literal H;
      eauto using numeric_render, numeric_decimal, numeric_zeros.
    all: first [apply in_firstn_in in H | apply in_skipn_in in H];
      break_in H; eauto using numeric_decimal, numeric_zeros.
Qed.




(** The renderings agree with what a JavaScript engine prints. *)
Example toFixed_2_values :
  map (fun x => Number.toFixed x 2)
      [16.2; 106.2; 45; 1.005; 0.125; -0.001; 1e21]%float
  = map Js.lit ["16.20"; "106.20"; "45.00"; "1.00"; "0.13"; "-0.00"; "1e+21"]%string.
Proof. vm_compute. reflexivity. Qed.

Example toString_values :
  map Number.toString
      [2; 18; 18.5; 0.1 + 0.2; 12345; 1e21; 5e-324; -3.25]%float
  = map Js.lit ["2"; "18"; "18.5"; "0.30000000000000004"; "12345"; "1e+21";
                "5e-324"; "-3.25"]%string.
Proof. vm_compute. reflexivity. Qed.

Example encode_rupee : Js.encode rupee = [226; 130; 185]%N.
Proof. reflexivity. Qed.

End NumberFacts.

(* ===================================================================== *)
(** * What the formatter emits *)
(* ===================================================================== *)

Section FormatterFacts.

Lemma forEach_emits {A} (xs : list A) (body : A -> Fmt unit)
      (f : PrintData.t -> A -> Js.str) :
  (forall x st, body x st =
     (tt, {| data_obj := data_obj st; receipt := receipt st ++ f (data_obj st) x |})) ->
  forall st, forEach xs body st =
     (tt, {| data_obj := data_obj st;
             receipt := receipt st ++ flat_map (f (data_obj st)) xs |}).
Proof.
  intros Hbody. induction xs as [| x xs IH]; intros st; cbn.
  - rewrite app_nil_r. now destruct st.
  - unfold fbind. rewrite Hbody, IH. cbn. now rewrite <- app_assoc.
Qed.

(** The text one call appends to [receipt]. *)
Lemma formatReceipt_body_run (now : Js.str) (st : fstate) :
  formatReceipt_body now st =
  (tt, {| data_obj := data_obj st;
          receipt := receipt st ++
            (receiptHead now (data_obj st)
             ++ receiptRows (data_obj st)
             ++ separator
             ++ ALIGN_RIGHT
             ++ Js.lit "Subtotal: " ++ PrintData.currency (data_obj st)
             ++ Number.toFixed (PrintData.subtotal (data_obj st)) 2 ++ LINE_FEED
             ++ (if Number.gt0 (PrintData.taxPercentage (data_obj st))
                 then taxLine (data_obj st) ++ LINE_FEED else [])
             ++ receiptFoot (data_obj st)) |}).
Proof.
  destruct st as [d r].
  cbv beta iota zeta delta [formatReceipt_body fbind get when emit fret data_obj receipt].
  unfold receiptHead, receiptRows, receiptFoot, taxLine, totalLine, separator.
  destruct (truthy (PrintData.customerName d)),
           (truthy (PrintData.customerPhone d));
    cbv beta iota zeta delta [data_obj receipt];
    rewrite (forEach_emits _ _
               (fun d item => itemRow (PrintData.currency d) item ++ LINE_FEED))
      by reflexivity;
    cbv beta iota zeta delta [data_obj receipt];
    destruct (Number.gt0 (PrintData.taxPercentage d));
    cbv beta iota zeta delta [data_obj receipt];
    repeat rewrite <- app_assoc; reflexivity.
Qed.

(** [formatReceipt] in closed form. *)
Lemma formatReceipt_eq (now : Js.str) (data : PrintData.t) :
  formatReceipt now data =
    receiptHead now data
    ++ receiptRows data
    ++ separator
    ++ ALIGN_RIGHT
    ++ Js.lit "Subtotal: " ++ PrintData.currency data
    ++ Number.toFixed (PrintData.subtotal data) 2 ++ LINE_FEED
    ++ (if Number.gt0 (PrintData.taxPercentage data)
        then taxLine data ++ LINE_FEED else [])
    ++ receiptFoot data.
Proof.
  unfold formatReceipt, formatReceipt_call.
  now rewrite formatReceipt_body_run.
Qed.

Lemma padLine_length (col1 col2 col3 col4 : Js.str) :
  List.length (padLine col1 col2 col3 col4) = 40.
Proof.
  unfold padLine. rewrite !length_app.
  rewrite padEnd_fit_length, !padStart_fit_length. reflexivity.
Qed.

(** The columns of a row are the fitted arguments. *)
Lemma column_padLine (c : Column) (col1 col2 col3 col4 : Js.str) :
  column c (padLine col1 col2 col3 col4) =
  match c with
  | ItemCol => Js.substring (Js.padEnd col1 col1Width) 0 col1Width
  | _ => Js.substring (Js.padStart (cell c col1 col2 col3 col4) (width c)) 0 (width c)
  end.
Proof.
  pose proof (padEnd_fit_length col1 col1Width) as Ha.
  pose proof (padStart_fit_length col2 col2Width) as Hb.
  pose proof (padStart_fit_length col3 col3Width) as He.
  pose proof (padStart_fit_length col4 col4Width) as Hg.
  unfold column, padLine.
  destruct c; cbn [offset width cell].
  - now apply (substring_at []).
  - now apply substring_at.
  - rewrite app_assoc. apply substring_at; [| assumption].
    rewrite length_app. congruence.
  - rewrite <- (app_nil_r (Js.substring (Js.padStart col4 _) _ _)) at 1.
    rewrite 2 app_assoc. apply substring_at; [| assumption].
    rewrite !length_app. congruence.
Qed.

(** Every item of the receipt has its row in the output. *)
Lemma formatReceipt_has_row (now : Js.str) (data : PrintData.t) (item : PrintItem.t) :
  In item (PrintData.items data) ->
  Js.Includes (formatReceipt now data)
              (itemRow (PrintData.currency data) item ++ LINE_FEED).
Proof.
  intros Hin. rewrite formatReceipt_eq.
  apply Includes_app_l, Includes_app_r.
  unfold receiptRows.
  induction (PrintData.items data) as [| x xs IH]; [destruct Hin |].
  cbn [flat_map]. destruct Hin as [-> | Hin].
  - apply Includes_prefix.
  - apply Includes_app_l. auto.
Qed.

End FormatterFacts.

(* ===================================================================== *)
(** * The column layout of a row *)
(* ===================================================================== *)

Section Layout.

(** C6.  Whatever the four texts are, the row [padLine] builds from them has
    exactly 16 + 4 + 10 + 10 = 40 characters: each column is padded or cut to
    its fixed width. *)
Theorem padLine_row_is_40_wide (col1 col2 col3 col4 : Js.str) :
  Js.len (padLine col1 col2 col3 col4)
  = col1Width + col2Width + col3Width + col4Width
  /\ col1Width + col2Width + col3Width + col4Width = 40.
Proof.
  split; [| reflexivity]. unfold Js.len. now rewrite padLine_length.
Qed.

(** C10.  A text wider than its column is cut to its leading characters: the
    column of the row holds the first [width c] characters of the text and
    nothing of the rest, be it the quantity (4), the price (10) or the total
    (10), or the name (16). *)
Theorem padLine_overflow_keeps_leading (c : Column) (col1 col2 col3 col4 : Js.str) :
  width c < Js.len (cell c col1 col2 col3 col4) ->
  column c (padLine col1 col2 col3 col4)
  = firstn (width c) (cell c col1 col2 col3 col4).
Proof.
  intros Hwide. rewrite column_padLine.
  destruct c; cbn [cell width] in *.
  - apply padEnd_fit_overflow. lia.
  - apply padStart_fit_overflow. lia.
  - apply padStart_fit_overflow. lia.
  - apply padStart_fit_overflow. lia.
Qed.

(** The row of an order of 12345 units worth 30868672.50 rupees: the quantity
    column reads 1234 and the total column loses the last two digits. *)
Lemma bulkOrder_row_is_cut :
  (width QtyCol < Js.len (Number.toString (PrintItem.quantity bulkOrder))
   /\ column QtyCol (itemRow rupee bulkOrder) = Js.lit "1234")
  /\ (width TotalCol < Js.len (rupee ++ Number.toFixed (PrintItem.total bulkOrder) 2)
      /\ column TotalCol (itemRow rupee bulkOrder) = rupee ++ Js.lit "30868672.").
Proof.
  assert (Hq : width QtyCol < Js.len (Number.toString (PrintItem.quantity bulkOrder)))
    by (vm_compute; lia).
  assert (Ht : width TotalCol
               < Js.len (rupee ++ Number.toFixed (PrintItem.total bulkOrder) 2))
    by (vm_compute; lia).
  split; (split; [assumption |]).
  - unfold itemRow.
    rewrite (padLine_overflow_keeps_leading QtyCol _ _ _ _ Hq). vm_compute. reflexivity.
  - unfold itemRow.
    rewrite (padLine_overflow_keeps_leading TotalCol _ _ _ _ Ht). vm_compute. reflexivity.
Defined.

(** C2, on the code.  The row of an item with a name of 30 characters shows
    the first 16 of them in the name column, and the 17th to 20th are nowhere
    in the row. *)
Lemma long_name_row_shows_16 :
  Js.len (PrintItem.name longNamed) = 30
  /\ itemRow rupee longNamed
     = Js.lit "Kashmiri Red Chi" ++ Js.lit "   1"
       ++ Js.lit "   " ++ rupee ++ Js.lit "120.00"
       ++ Js.lit "   " ++ rupee ++ Js.lit "120.00"
  /\ Js.includes (itemRow rupee longNamed) (firstn 20 (PrintItem.name longNamed)) = false
  /\ In (itemRow rupee longNamed) (Js.lines (formatReceipt noon chilliReceipt)).
Proof.
  split; [vm_compute; reflexivity |].
  split; [vm_compute; reflexivity |].
  split; [vm_compute; reflexivity |].
  vm_compute. do 9 right. left. reflexivity.
Qed.

(** C2, amended.  The name of an item longer than 20 characters is cut to its
    first 20 characters before the row is laid out, and the name column of
    the row [formatReceipt] emits for the item, 16 wide, holds the first 16
    of them. *)
Theorem long_name_is_cut_to_the_column
        (now : Js.str) (data : PrintData.t) (item : PrintItem.t) :
  In item (PrintData.items data) ->
  20 < Js.len (PrintItem.name item) ->
  let row := itemRow (PrintData.currency data) item in
  Js.Includes (formatReceipt now data) (row ++ LINE_FEED)
  /\ row = padLine (firstn 20 (PrintItem.name item))
                   (Number.toString (PrintItem.quantity item))
                   (PrintData.currency data ++ Number.toFixed (PrintItem.price item) 2)
                   (PrintData.currency data ++ Number.toFixed (PrintItem.total item) 2)
  /\ column ItemCol row = firstn 16 (PrintItem.name item).
Proof.
  intros Hitem Hlong. cbv zeta.
  split; [now apply formatReceipt_has_row |].
  unfold itemRow. rewrite substring_from_0. split; [reflexivity |].
  rewrite column_padLine, padEnd_fit_overflow.
  - rewrite firstn_firstn. reflexivity.
  - unfold Js.len in *. rewrite length_firstn. unfold col1Width. lia.
Qed.

(** The chilli powder on its receipt. *)
Lemma chilli_name_is_cut_to_the_column :
  (In longNamed (PrintData.items chilliReceipt)
   /\ 20 < Js.len (PrintItem.name longNamed))
  /\ column ItemCol (itemRow (PrintData.currency chilliReceipt) longNamed)
     = Js.lit "Kashmiri Red Chi".
Proof.
  assert (Hitem : In longNamed (PrintData.items chilliReceipt)) by (now left).
  assert (Hlong : 20 < Js.len (PrintItem.name longNamed)) by (vm_compute; lia).
  split; [now split |].
  rewrite (proj2 (proj2 (long_name_is_cut_to_the_column
                           noon chilliReceipt longNamed Hitem Hlong))).
  vm_compute. reflexivity.
Defined.

End Layout.

(* ===================================================================== *)
(** * The receipt as a whole *)
(* ===================================================================== *)

Lemma Includes_trans (s t u : Js.str) :
  Js.Includes s t -> Js.Includes t u -> Js.Includes s u.
Proof.
  intros (p1 & q1 & ->) (p2 & q2 & ->).
  exists (p1 ++ p2), (q2 ++ q1). now rewrite <- !app_assoc.
Qed.

Lemma in_repeat_str c (s : Js.str) n : In c (Js.repeat s n) -> In c s.
Proof.
  unfold Js.repeat. intros H. apply in_concat in H as (l & Hl & Hc).
  apply in_repeat_eq in Hl. now subst l.
Qed.

Lemma in_padLine c (col1 col2 col3 col4 : Js.str) :
  In c (padLine col1 col2 col3 col4) ->
  In c col1 \/ In c col2 \/ In c col3 \/ In c col4 \/ c = Js.space.
Proof.
  unfold padLine. intros H.
  apply in_app_or in H as [H | H]; [apply in_padEnd_fit in H; tauto |].
  apply in_app_or in H as [H | H]; [apply in_padStart_fit in H; tauto |].
  apply in_app_or in H as [H | H]; apply in_padStart_fit in H; tauto.
Qed.

(** Lines past the first one of a text stay lines when text is put before. *)
Lemma in_tl_lines_app (a b l : Js.str) :
  In l (tl (Js.lines b)) -> In l (tl (Js.lines (a ++ b))).
Proof.
  intros H. induction a as [| c a IH]; [exact H |].
  cbn [app Js.lines]. destruct (N.eqb c 10).
  - cbn [tl]. destruct (Js.lines (a ++ b)); [destruct IH | now right].
  - destruct (Js.lines (a ++ b)); [destruct IH | exact IH].
Qed.

Lemma in_tl_lines (s l : Js.str) : In l (tl (Js.lines s)) -> In l (Js.lines s).
Proof. destruct (Js.lines s); [now intros [] | now right]. Qed.

(** Put aside the pieces of a text up to and including [x]. *)
Ltac skip_past x :=
  lazymatch goal with
  | |- In _ (tl (Js.lines (x ++ _))) => apply in_tl_lines_app
  | |- In _ (tl (Js.lines (_ ++ _))) => apply in_tl_lines_app; skip_past x
  end.

(** A character that is none of the listed ones. *)
Ltac not_literal H :=
  cbn in H; repeat (destruct H as [H | H]; [discriminate H |]); destruct H.

Section Receipt.





(** C7.  The receipt of two packets of turmeric at 45 rupees, taxed at
    18 per cent, has the row of the item with its quantity 2, the line
    "Tax (18%): ₹16.20" and, in bold, the line "TOTAL: ₹106.20", whatever the
    date printed on it. *)
Theorem masale_receipt_lines (now : Js.str) :
  let out := Js.lines (formatReceipt now masaleReceipt) in
  In (Js.lit "Turmeric Powder " ++ Js.lit "   2"
      ++ Js.lit "    " ++ rupee ++ Js.lit "45.00"
      ++ Js.lit "    " ++ rupee ++ Js.lit "90.00") out
  /\ In (Js.lit "Tax (18%): " ++ rupee ++ Js.lit "16.20") out
  /\ In (BOLD_ON ++ Js.lit "TOTAL: " ++ rupee ++ Js.lit "106.20") out.
Proof.
  cbv zeta. rewrite formatReceipt_eq. unfold receiptHead.
  repeat rewrite <- app_assoc.
  split; [| split]; apply in_tl_lines; skip_past now; vm_compute.
  - do 4 right. left. reflexivity.
  - do 7 right. left. reflexivity.
  - do 8 right. left. reflexivity.
Qed.

(** C9.  Formatting leaves the receipt object as it was, a second call on
    the object with the same date gives the same text as the first, and in a
    run the text is that of the receipt and of the clock reading alone, with
    nothing asked of the host. *)
Theorem formatReceipt_pure (now : Js.str) (data : PrintData.t) :
  snd (formatReceipt_call now data) = data
  /\ fst (formatReceipt_call now (snd (formatReceipt_call now data)))
     = fst (formatReceipt_call now data)
  /\ forall (host : Host.t) (n : nat),
       outcome (formatReceiptIO host data n) = Ok (formatReceipt (clock host n) data)
       /\ trace (formatReceiptIO host data n) = [].
Proof.
  assert (Hsame : snd (formatReceipt_call now data) = data).
  { unfold formatReceipt_call. now rewrite formatReceipt_body_run. }
  split; [exact Hsame |]. split.
  - now rewrite Hsame.
  - intros host n. split; reflexivity.
Qed.

End Receipt.

(* ===================================================================== *)
(** * Facts about runs *)
(* ===================================================================== *)

Section RunFacts.

Context {A B : Type}.

Lemma bind_at (m : IO A) (k : A -> IO B) n :
  bind m k n =
  match outcome (m n) with
  | Ok a =>
      {| outcome := outcome (k a (reads (m n)));
         reads := reads (k a (reads (m n)));
         trace := trace (m n) ++ trace (k a (reads (m n))) |}
  | Thrown e =>
      {| outcome := Thrown e; reads := reads (m n); trace := trace (m n) |}
  end.
Proof. reflexivity. Qed.

Lemma catch_at (m : IO A) (h : Exn -> IO A) n :
  catch m h n =
  match outcome (m n) with
  | Ok a => m n
  | Thrown e =>
      {| outcome := outcome (h e (reads (m n)));
         reads := reads (h e (reads (m n)));
         trace := trace (m n) ++ trace (h e (reads (m n))) |}
  end.
Proof. reflexivity. Qed.

Lemma trace_bind (m : IO A) (k : A -> IO B) n :
  trace (bind m k n) =
  trace (m n) ++ match outcome (m n) with
                 | Ok a => trace (k a (reads (m n)))
                 | Thrown _ => []
                 end.
Proof.
  unfold bind. destruct (outcome (m n)); cbn; [reflexivity | now rewrite app_nil_r].
Qed.

Lemma reads_bind (m : IO A) (k : A -> IO B) n :
  reads (bind m k n) = match outcome (m n) with
                       | Ok a => reads (k a (reads (m n)))
                       | Thrown _ => reads (m n)
                       end.
Proof. unfold bind. now destruct (outcome (m n)). Qed.

Lemma outcome_bind (m : IO A) (k : A -> IO B) n :
  outcome (bind m k n) = match outcome (m n) with
                         | Ok a => outcome (k a (reads (m n)))
                         | Thrown e => Thrown e
                         end.
Proof. unfold bind. now destruct (outcome (m n)). Qed.

Lemma trace_catch (m : IO A) (h : Exn -> IO A) n :
  trace (catch m h n) =
  trace (m n) ++ match outcome (m n) with
                 | Ok _ => []
                 | Thrown e => trace (h e (reads (m n)))
                 end.
Proof.
  unfold catch. destruct (outcome (m n)); cbn; [now rewrite app_nil_r | reflexivity].
Qed.

Lemma reads_catch (m : IO A) (h : Exn -> IO A) n :
  reads (catch m h n) = match outcome (m n) with
                        | Ok _ => reads (m n)
                        | Thrown e => reads (h e (reads (m n)))
                        end.
Proof. unfold catch. now destruct (outcome (m n)). Qed.

Lemma outcome_catch (m : IO A) (h : Exn -> IO A) n :
  outcome (catch m h n) = match outcome (m n) with
                          | Ok a => Ok a
                          | Thrown e => outcome (h e (reads (m n)))
                          end.
Proof. unfold catch. now destruct (outcome (m n)) eqn:E. Qed.

Lemma Still_ret (a : A) : Still (ret a).
Proof. intros n. reflexivity. Qed.

Lemma Still_throw (e : Exn) : Still (@throw A e).
Proof. intros n. reflexivity. Qed.

Lemma Still_bind (m : IO A) (k : A -> IO B) :
  Still m -> (forall a, Still (k a)) -> Still (bind m k).
Proof.
  intros Hm Hk n. rewrite reads_bind, Hm.
  destruct (outcome (m n)); [apply Hk | reflexivity].
Qed.

Lemma Still_catch (m : IO A) (h : Exn -> IO A) :
  Still m -> (forall e, Still (h e)) -> Still (catch m h).
Proof.
  intros Hm Hh n. rewrite reads_catch, Hm.
  destruct (outcome (m n)); [reflexivity | apply Hh].
Qed.

Lemma Emits_ret P (a : A) : Emits P (ret a).
Proof. intros n. constructor. Qed.

Lemma Emits_throw P (e : Exn) : Emits P (@throw A e).
Proof. intros n. constructor. Qed.

Lemma Emits_bind P (m : IO A) (k : A -> IO B) :
  Still m -> Emits P m -> (forall a, Emits P (k a)) -> Emits P (bind m k).
Proof.
  intros Hs Hm Hk n. rewrite trace_bind, Hs. apply Forall_app. split; [apply Hm |].
  destruct (outcome (m n)); [apply Hk | constructor].
Qed.

Lemma Emits_catch P (m : IO A) (h : Exn -> IO A) :
  Still m -> Emits P m -> (forall e, Emits P (h e)) -> Emits P (catch m h).
Proof.
  intros Hs Hm Hh n. rewrite trace_catch, Hs. apply Forall_app. split; [apply Hm |].
  destruct (outcome (m n)); [constructor | apply Hh].
Qed.

End RunFacts.

Lemma call_at (ev : Event) (ok : bool) n :
  call ev ok n = {| outcome := if ok then Ok tt else Thrown Rejected;
                    reads := n; trace := [ev] |}.
Proof. reflexivity. Qed.

Lemma ret_at {A} (a : A) n : ret a n = {| outcome := Ok a; reads := n; trace := [] |}.
Proof. reflexivity. Qed.

Lemma throw_at {A} (e : Exn) n :
  @throw A e n = {| outcome := Thrown e; reads := n; trace := [] |}.
Proof. reflexivity. Qed.

Lemma method_at (s : Strategy) (body : IO unit) n :
  method s body n =
  {| outcome := outcome (body n); reads := reads (body n);
     trace := Call s :: trace (body n) ++ [Return s (is_ok (outcome (body n)))] |}.
Proof. reflexivity. Qed.

Lemma formatReceiptIO_at (host : Host.t) (data : PrintData.t) n :
  formatReceiptIO host data n =
  {| outcome := Ok (formatReceipt (clock host n) data); reads := S n; trace := [] |}.
Proof. reflexivity. Qed.

Lemma Still_call (ev : Event) (ok : bool) : Still (call ev ok).
Proof. intros n. reflexivity. Qed.

Lemma Emits_call (P : nat -> Event -> Prop) (ev : Event) (ok : bool) :
  (forall n, P n ev) -> Emits P (call ev ok).
Proof. intros H n. cbn. constructor; [apply H | constructor]. Qed.

Lemma Still_method (s : Strategy) (body : IO unit) : Still body -> Still (method s body).
Proof. intros H n. apply H. Qed.

Lemma method_attempt (s : Strategy) (first second : Js.str) (body : IO unit) n :
  Forall (touches s first second) (trace (body n)) ->
  attempt_of s first second (method s body n).
Proof. intros H. exists (trace (body n)). split; [reflexivity | exact H]. Qed.

Create HintDb run discriminated.
#[local] Hint Resolve Still_ret Still_throw Still_bind Still_catch Still_call
  Still_method Emits_ret Emits_throw Emits_bind Emits_catch Emits_call : run.

(** What an attempt shows of itself. *)
Section AttemptFacts.

Variables (s : Strategy) (first second : Js.str) (r : Run unit).
Hypothesis Hr : attempt_of s first second r.

Lemma touches_inner e : touches s first second e -> inner e.
Proof. destruct e; cbn; tauto. Qed.

Lemma touches_delivers e : touches s first second e -> delivers first second e.
Proof. destruct e; cbn; tauto. Qed.


Lemma returns_inner evs : Forall inner evs -> returns evs = [].
Proof.
  unfold returns. induction 1 as [| e evs He _ IH]; [reflexivity |].
  cbn. rewrite IH. now destruct e.
Qed.


Lemma returns_app a b : returns (a ++ b) = returns a ++ returns b.
Proof. apply flat_map_app. Qed.



Lemma attempt_returns : returns (trace r) = [(s, is_ok (outcome r))].
Proof.
  destruct Hr as (evs & -> & Hevs).
  change (returns ([Call s] ++ evs ++ [Return s (is_ok (outcome r))])
          = [(s, is_ok (outcome r))]).
  rewrite !returns_app, (returns_inner evs); [reflexivity |].
  eapply Forall_impl; [| exact Hevs]. apply touches_inner.
Qed.

Lemma attempt_delivers : Forall (delivers first second) (trace r).
Proof.
  destruct Hr as (evs & -> & Hevs).
  constructor; [exact I |]. apply Forall_app. split.
  - eapply Forall_impl; [| exact Hevs]. apply touches_delivers.
  - constructor; [exact I | constructor].
Qed.


End AttemptFacts.

(* ===================================================================== *)
(** * The transports one by one *)
(* ===================================================================== *)

#[local] Hint Extern 1 (touches _ _ _ _) => cbn; auto : run.

Section TransportFacts.

Variable host : Host.t.

Lemma printViaWebUSB_attempt (receiptData second : Js.str) (n : nat) :
  attempt_of WebUSB receiptData second (printViaWebUSB host receiptData n)
  /\ reads (printViaWebUSB host receiptData n) = n.
Proof.
  split.
  - apply method_attempt.
    apply (fun H : Emits (fun _ => touches WebUSB receiptData second) _ => H n).
    destruct (has_usb host); cbn [negb]; cbv zeta; auto 20 with run.
  - apply Still_method.
    destruct (has_usb host); cbn [negb]; cbv zeta; auto 20 with run.
Qed.

Lemma printViaAndroidIntent_attempt (receiptData second : Js.str) (n : nat) :
  attempt_of AndroidIntent receiptData second (printViaAndroidIntent host receiptData n)
  /\ reads (printViaAndroidIntent host receiptData n) = n.
Proof.
  split.
  - apply method_attempt.
    apply (fun H : Emits (fun _ => touches AndroidIntent receiptData second) _ => H n).
    destruct (has_Android host), (has_androidIntent host); auto with run.
  - apply Still_method.
    destruct (has_Android host), (has_androidIntent host); auto with run.
Qed.

Lemma printViaWindowsPrint_attempt (receiptData second : Js.str) (n : nat) :
  attempt_of WindowsPrint receiptData second (printViaWindowsPrint host receiptData n)
  /\ reads (printViaWindowsPrint host receiptData n) = n.
Proof.
  split.
  - apply method_attempt.
    apply (fun H : Emits (fun _ => touches WindowsPrint receiptData second) _ => H n).
    destruct (has_external host && has_external_print host); auto with run.
  - apply Still_method.
    destruct (has_external host && has_external_print host); auto with run.
Qed.

Lemma Still_doFetch (url body : Js.str) : Still (doFetch host url body).
Proof. intros n. reflexivity. Qed.

Lemma Still_tryPrinterIPs (ips : list Js.str) (receiptData : Js.str) :
  Still (tryPrinterIPs host ips receiptData).
Proof.
  induction ips as [| ip rest IH]; cbn [tryPrinterIPs]; [auto with run |].
  apply Still_bind.
  - apply Still_catch; [apply Still_doFetch | auto with run].
  - intros []; auto with run.
Qed.

Lemma Emits_tryPrinterIPs (ips : list Js.str) (receiptData second : Js.str) :
  incl ips printerIPs ->
  Emits (fun _ => touches RawSocket receiptData second)
        (tryPrinterIPs host ips receiptData).
Proof.
  induction ips as [| ip rest IH]; intros Hincl; cbn [tryPrinterIPs];
    [auto with run |].
  apply Emits_bind.
  - apply Still_catch; [apply Still_doFetch | auto with run].
  - apply Emits_catch; [apply Still_doFetch | | auto with run].
    intros n. cbn [doFetch trace]. constructor; [| constructor].
    cbn [touches].
    split; [reflexivity | split; [| reflexivity]].
    apply in_map, Hincl. now left.
  - intros []; [auto with run |]. apply IH.
    intros x Hx. apply Hincl. now right.
Qed.

Lemma printViaRawSocket_attempt (receiptData second : Js.str) (n : nat) :
  attempt_of RawSocket receiptData second (printViaRawSocket host receiptData n)
  /\ reads (printViaRawSocket host receiptData n) = n.
Proof.
  split.
  - apply method_attempt, Emits_tryPrinterIPs, incl_refl.
  - apply Still_method, Still_tryPrinterIPs.
Qed.


Lemma tryBaudRates_run (rates : list Z) (first second : Js.str) (n : nat) :
  reads (tryBaudRates host rates n) = n
  /\ Forall (touches Serial first second) (trace (tryBaudRates host rates n))
  /\ writes (trace (tryBaudRates host rates n)) = []
  /\ exists connected, outcome (tryBaudRates host rates n) = Ok connected.
Proof.
  induction rates as [| baudRate rest IH]; cbn [tryBaudRates].
  - repeat split; [constructor | now exists false].
  - unfold bind, catch, call, ret.
    destruct (port_open host baudRate); cbn [outcome reads trace app].
    + repeat split; [repeat constructor | now exists true].
    + destruct IH as (Hr & Ht & Hw & Ho).
      repeat split; [exact Hr | constructor; [reflexivity | exact Ht] | |]; assumption.
Qed.

Lemma writeChunks_run (dataArray : list N) (i : nat) :
  forall n,
    let r := writeChunks host dataArray i n in
    let ws := writes (trace r) in
    reads r = n
    /\ (exists rest, skipn i dataArray = List.concat (map fst ws) ++ rest
                     /\ (is_ok (outcome r) = true -> rest = []))
    /\ Forall (fun w => 0 < List.length (fst w) <= chunkSize) ws
    /\ Forall (fun w => List.length (fst w) = chunkSize /\ snd w = true) (removelast ws)
    /\ (is_ok (outcome r) = true -> Forall (fun w => snd w = true) ws)
    /\ (List.length dataArray <= i -> ws = [])
    /\ (forall first second, dataArray = Js.encode second ->
        Forall (touches Serial first second) (trace r)).
Proof.
  funelim (writeChunks host dataArray i); clear Heqcall; intros k.
  - (* i < dataArray.length *)
    pose proof (H tt tt 0 k) as IH. clear H.
    set (chunk := slice dataArray i (i + chunkSize)).
    assert (Hsplit : skipn i dataArray = chunk ++ skipn (i + chunkSize) dataArray).
    { unfold chunk, slice. replace (i + chunkSize - i) with chunkSize by lia.
      rewrite Nat.add_comm, <- skipn_skipn. symmetry. apply firstn_skipn. }
    assert (Hlen : 0 < List.length chunk <= chunkSize).
    { unfold chunk, slice. rewrite length_firstn, length_skipn.
      unfold chunkSize. lia. }
    unfold bind, call. cbv zeta. fold chunk.
    destruct (writer_write host i chunk); cbn [outcome reads trace app is_ok].
    + cbv zeta in IH.
      set (r := writeChunks host dataArray (i + chunkSize) k) in *.
      destruct IH as (Hr & (rest & Hrest & Hok) & Hsz & Hfull & Hall & Hnone & Htouch).
      assert (Eo : outcome
                     {| outcome := outcome r; reads := reads r;
                        trace := [Delay 10] ++ trace r |} = outcome r) by reflexivity.
      cbn [app].
      change (writes (WriterWrite chunk true :: Delay 10 :: trace r))
        with ((chunk, true) :: writes (trace r)).
      split; [exact Hr |].
      split; [exists rest; split;
              [rewrite Hsplit, Hrest; cbn; now rewrite app_assoc | exact Hok] |].
      split; [constructor; [exact Hlen | exact Hsz] |].
      split.
      { destruct (writes (trace r)) eqn:Ew; [constructor |].
        constructor; [| exact Hfull]. split; [| reflexivity]. cbn [fst].
        destruct (Nat.le_gt_cases (List.length dataArray) (i + chunkSize))
          as [Hle | Hgt]; [now specialize (Hnone Hle) |].
        unfold chunk, slice. rewrite length_firstn, length_skipn. lia. }
      split; [intros Hyes; constructor; [reflexivity | now apply Hall] |].
      split; [intros; lia |].
      intros first second Hd.
      constructor; [cbn; split; [reflexivity | subst dataArray; now exists i] |].
      constructor; [reflexivity | now apply Htouch].
    + cbn [app].
      change (writes ([WriterWrite chunk false])) with [(chunk, false)].
      split; [reflexivity |].
      split; [exists (skipn (i + chunkSize) dataArray); split;
              [rewrite Hsplit; cbn; now rewrite app_nil_r | discriminate] |].
      split; [constructor; [exact Hlen | constructor] |].
      split; [constructor |].
      split; [discriminate |].
      split; [intros; lia |].
      intros first second Hd. constructor; [| constructor].
      cbn. split; [reflexivity |]. subst dataArray. now exists i.
  - (* the loop is over *)
    cbn.
    split; [reflexivity |].
    split; [exists []; split; [apply skipn_all2; lia | reflexivity] |].
    split; [constructor |]. split; [constructor |].
    split; [intros; constructor |]. split; [reflexivity |].
    intros. constructor.
Qed.

End TransportFacts.

(* ===================================================================== *)
(** * The serial transport *)
(* ===================================================================== *)

Lemma writes_app a b : writes (a ++ b) = writes a ++ writes b.
Proof. apply flat_map_app. Qed.

Section SerialFacts.

Variable host : Host.t.

Lemma Emits_catch_throw {A} P (m : IO A) (f : Exn -> Exn) :
  Emits P m -> Emits P (catch m (fun error => throw (f error))).
Proof.
  intros Hm n. rewrite trace_catch.
  destruct (outcome (m n)); cbn [throw trace]; rewrite app_nil_r; apply Hm.
Qed.

Lemma Emits_bind_formatReceiptIO {B} P (data : PrintData.t) (k : Js.str -> IO B) :
  (forall n, Forall (P n) (trace (k (formatReceipt (clock host n) data) (S n)))) ->
  Emits P (bind (formatReceiptIO host data) k).
Proof. intros Hk n. rewrite bind_at, formatReceiptIO_at. cbn. apply Hk. Qed.

Lemma Still_tryBaudRates (rates : list Z) : Still (tryBaudRates host rates).
Proof. intros n. apply (tryBaudRates_run host rates [] [] n). Qed.

Lemma Still_writeChunks (dataArray : list N) (i : nat) :
  Still (writeChunks host dataArray i).
Proof. intros n. apply (writeChunks_run host dataArray i n). Qed.

Lemma Emits_writeChunks (first second : Js.str) (i : nat) :
  Emits (fun _ => touches Serial first second)
        (writeChunks host (Js.encode second) i).
Proof.
  intros n.
  destruct (writeChunks_run host (Js.encode second) i n)
    as (_ & _ & _ & _ & _ & _ & H).
  now apply H.
Qed.

(** An attempt over the serial port touches the serial port alone, and the
    chunks it writes are chunks of the receipt as formatted at its start. *)
Lemma printViaSerial_attempt (data : PrintData.t) (first : Js.str) (n : nat) :
  attempt_of Serial first (formatReceipt (clock host n) data)
             (printViaSerial host data n).
Proof.
  apply method_attempt.
  apply (fun H : Emits (fun k => touches Serial first
                                   (formatReceipt (clock host k) data)) _ => H n).
  apply Emits_catch_throw.
  apply Emits_bind; [auto with run | auto with run |]. intros _.
  apply Emits_bind; [apply Still_tryBaudRates | |].
  { intros k. apply (tryBaudRates_run host baudRates first _ k). }
  intros connected. destruct connected; cbn [negb]; [| auto with run].
  apply Emits_bind; [auto with run | auto with run |]. intros _.
  apply Emits_bind_formatReceiptIO. intros k. cbv zeta.
  apply (fun H : Emits (fun _ => touches Serial first
                                   (formatReceipt (clock host k) data)) _ => H (S k)).
  apply Emits_bind; [apply Still_writeChunks | apply Emits_writeChunks |].
  auto with run.
Qed.






End SerialFacts.

(* ===================================================================== *)
(** * The cascade *)
(* ===================================================================== *)

Section CatchFacts.

Context {A : Type}.

(** A handler that ignores what was thrown. *)
Lemma trace_catch_any (m h : IO A) n :
  trace (catch m (fun _ => h) n) =
  trace (m n) ++ if is_ok (outcome (m n)) then [] else trace (h (reads (m n))).
Proof. rewrite trace_catch. now destruct (outcome (m n)). Qed.

Lemma is_ok_catch_any (m h : IO A) n :
  is_ok (outcome (catch m (fun _ => h) n)) =
  is_ok (outcome (m n)) || is_ok (outcome (h (reads (m n)))).
Proof. rewrite outcome_catch. now destruct (outcome (m n)). Qed.

End CatchFacts.

Section CascadeFacts.

Variables (host : Host.t) (data : PrintData.t) (n : nat).

(** The receipt [printViaPOSCommand] formats, and the one [printViaSerial]
    formats after it. *)
Let first := formatReceipt (clock host n) data.
Let second := formatReceipt (clock host (S n)) data.

(** The attempts of one call of [print], should it come to them. *)
Let usb := printViaWebUSB host first (S n).
Let android := printViaAndroidIntent host first (S n).
Let windows := printViaWindowsPrint host first (S n).
Let socket := printViaRawSocket host first (S n).
Let serial := printViaSerial host data (S n).
Let browser k := printViaBrowser host data k.

Lemma printViaBrowser_attempt (p q : Js.str) (k : nat) :
  attempt_of Browser p q (printViaBrowser host data k)
  /\ outcome (printViaBrowser host data k) = Ok tt.
Proof.
  unfold printViaBrowser. rewrite method_at, !bind_at. unfold toLocaleString.
  cbn [outcome reads trace]. rewrite bind_at, call_at. cbn [outcome reads trace].
  destruct (window_open host).
  - rewrite bind_at, !call_at. cbn [outcome reads trace app is_ok]. split; [| reflexivity].
    exists [WindowOpen; DocumentWrite (clock host k) data; DocumentClose].
    split; [reflexivity | repeat constructor].
  - rewrite ret_at. cbn [outcome reads trace app is_ok]. split; [| reflexivity].
    exists [WindowOpen]. split; [reflexivity | repeat constructor].
Qed.

Lemma printViaPOSCommand_reads : reads (printViaPOSCommand host data n) = S n.
Proof.
  unfold printViaPOSCommand. rewrite reads_bind, formatReceiptIO_at.
  cbn [outcome reads tryMethods]. fold first.
  repeat (apply Still_catch; [intros k; first
            [ apply printViaWebUSB_attempt | apply printViaAndroidIntent_attempt
            | apply printViaWindowsPrint_attempt | apply printViaRawSocket_attempt ];
            exact [] | intros _]).
  apply Still_throw.
Qed.

Lemma printViaPOSCommand_trace :
  trace (printViaPOSCommand host data n) =
  trace usb ++
  if is_ok (outcome usb) then [] else
    trace android ++
    if is_ok (outcome android) then [] else
      trace windows ++
      if is_ok (outcome windows) then [] else trace socket.
Proof.
  unfold printViaPOSCommand. rewrite trace_bind, formatReceiptIO_at.
  cbn [outcome reads trace tryMethods app]. fold first.
  rewrite !trace_catch_any.
  rewrite (proj2 (printViaWebUSB_attempt host first [] (S n))).
  rewrite (proj2 (printViaAndroidIntent_attempt host first [] (S n))).
  rewrite (proj2 (printViaWindowsPrint_attempt host first [] (S n))).
  fold usb android windows socket.
  destruct (is_ok (outcome usb)), (is_ok (outcome android)),
           (is_ok (outcome windows)), (is_ok (outcome socket));
    cbn [throw trace]; now rewrite ?app_nil_r.
Qed.

Lemma printViaPOSCommand_ok :
  is_ok (outcome (printViaPOSCommand host data n)) =
  is_ok (outcome usb) || is_ok (outcome android)
  || is_ok (outcome windows) || is_ok (outcome socket).
Proof.
  unfold printViaPOSCommand. rewrite outcome_bind, formatReceiptIO_at.
  cbn [outcome reads tryMethods]. fold first.
  rewrite !is_ok_catch_any.
  rewrite (proj2 (printViaWebUSB_attempt host first [] (S n))).
  rewrite (proj2 (printViaAndroidIntent_attempt host first [] (S n))).
  rewrite (proj2 (printViaWindowsPrint_attempt host first [] (S n))).
  fold usb android windows socket. cbn [throw outcome is_ok].
  now rewrite orb_false_r, !orb_assoc.
Qed.

(** The trace of one call of [print]: the attempts in the order of the
    cascade, each entered only once all before it have failed. *)
Lemma print_trace :
  trace (print host data n) =
  trace usb ++
  if is_ok (outcome usb) then [] else
    trace android ++
    if is_ok (outcome android) then [] else
      trace windows ++
      if is_ok (outcome windows) then [] else
        trace socket ++
        if is_ok (outcome socket) then [] else
          if has_serial host
          then trace serial ++
               if is_ok (outcome serial) then [] else trace (browser (reads serial))
          else trace (browser (S n)).
Proof.
  unfold print. rewrite trace_catch_any.
  rewrite printViaPOSCommand_trace, printViaPOSCommand_ok, printViaPOSCommand_reads.
  rewrite trace_catch_any. fold serial.
  destruct (is_ok (outcome usb)), (is_ok (outcome android)),
           (is_ok (outcome windows)), (is_ok (outcome socket));
    cbn [orb]; rewrite <- ?app_assoc, ?app_nil_r; try reflexivity.
  destruct (has_serial host); [reflexivity |].
  rewrite throw_at. cbn [outcome reads trace is_ok app]. reflexivity.
Qed.


End CascadeFacts.

(* ===================================================================== *)
(** * The orchestrator *)
(* ===================================================================== *)


(** The cascade on a host whose USB printer rejects the transfer and whose
    serial printer works: five transports entered, the fifth succeeds, the
    browser is left alone. *)
Example print_on_serialHost :
  returns (trace (print serialHost masaleReceipt 0))
  = [(WebUSB, false); (AndroidIntent, false); (WindowsPrint, false);
     (RawSocket, false); (Serial, true)]
  /\ fetched (trace (print serialHost masaleReceipt 0))
     = [Js.lit "http://192.168.1.100:9100"; Js.lit "http://192.168.0.100:9100";
        Js.lit "http://10.0.0.100:9100"]
  /\ map (fun w => List.length (fst w)) (writes (trace (print serialHost masaleReceipt 0)))
     = [64; 64; 64; 64; 64; 64; 64; 24].
Proof. vm_compute. repeat split. Qed.



(** C3, on the code.  The USB printer of this host rejects the transfer and
    its serial printer takes the receipt a second later: the bytes handed to
    the USB transfer and the bytes written to the serial port are two
    receipts, formatted at two readings of the clock, and they differ. *)
Lemma serial_payload_is_formatted_again :
  let r := print serialHost masaleReceipt 0 in
  let first := formatReceipt (clock serialHost 0) masaleReceipt in
  let second := formatReceipt (clock serialHost 1) masaleReceipt in
  transfers (trace r) = [Js.encode first]
  /\ List.concat (map fst (writes (trace r))) = Js.encode second
  /\ Js.encode first <> Js.encode second
  /\ reads r = 2.
Proof.
  cbv zeta.
  split; [vm_compute; reflexivity |]. split; [vm_compute; reflexivity |].
  split; [| vm_compute; reflexivity].
  intros H.
  apply (f_equal (fun bytes => Js.includes bytes (Js.lit ":01 PM"))) in H.
  vm_compute in H. discriminate H.
Qed.

(** C3, amended.  In one call of [print] the receipt [printViaPOSCommand]
    formats is handed as it is to the USB transfer (as its UTF-8 bytes), to
    the Android and Windows bridges and to every network candidate; the
    serial transport formats the receipt again at the next reading of the
    clock and writes chunks of that one.  The two are one and the same
    whenever the two clock readings agree. *)
Theorem print_payloads (host : Host.t) (data : PrintData.t) (n : nat) :
  let first := formatReceipt (clock host n) data in
  let second := formatReceipt (clock host (S n)) data in
  Forall (delivers first second) (trace (print host data n))
  /\ (clock host n = clock host (S n) -> first = second).
Proof.
  cbv zeta. split; [| now intros ->].
  rewrite print_trace. cbv zeta.
  set (first := formatReceipt (clock host n) data).
  set (second := formatReceipt (clock host (S n)) data).
  pose proof (attempt_delivers _ _ _ _
                (proj1 (printViaWebUSB_attempt host first second (S n)))) as Husb.
  pose proof (attempt_delivers _ _ _ _
                (proj1 (printViaAndroidIntent_attempt host first second (S n)))) as Handroid.
  pose proof (attempt_delivers _ _ _ _
                (proj1 (printViaWindowsPrint_attempt host first second (S n)))) as Hwindows.
  pose proof (attempt_delivers _ _ _ _
                (proj1 (printViaRawSocket_attempt host first second (S n)))) as Hsocket.
  pose proof (attempt_delivers _ _ _ _
                (printViaSerial_attempt host data first (S n))) as Hserial.
  pose proof (fun k => attempt_delivers _ _ _ _
                (proj1 (printViaBrowser_attempt host data first second k))) as Hbrowser.
  repeat first
    [ assumption
    | apply Forall_nil
    | apply Hbrowser
    | apply Forall_app; split
    | match goal with |- Forall _ (if ?b then _ else _) => destruct b end ].
Qed.



(* ===================================================================== *)
(** * The lines of a receipt *)
(* ===================================================================== *)

Section LineFacts.

Lemma lines_line (l rest : Js.str) :
  avoids newline l -> Js.lines (l ++ newline :: rest) = l :: Js.lines rest.
Proof.
  induction l as [| c l IH]; intros Hl; [reflexivity |].
  cbn [app Js.lines].
  destruct (N.eqb_spec c 10) as [-> | _]; [exfalso; apply Hl; now left |].
  rewrite IH; [reflexivity |]. intros H. apply Hl. now right.
Qed.

Lemma lines_last (l : Js.str) : avoids newline l -> Js.lines l = [l].
Proof.
  induction l as [| c l IH]; intros Hl; [reflexivity |].
  cbn [Js.lines].
  destruct (N.eqb_spec c 10) as [-> | _]; [exfalso; apply Hl; now left |].
  rewrite IH; [reflexivity |]. intros H. apply Hl. now right.
Qed.

(** Splitting into lines undoes joining them with line feeds. *)
Lemma lines_unlines (ls : list Js.str) (last : Js.str) :
  Forall (avoids newline) ls -> avoids newline last ->
  Js.lines (flat_map (fun l => l ++ [newline]) ls ++ last) = ls ++ [last].
Proof.
  intros Hls Hlast. induction Hls as [| l ls Hl _ IH]; cbn [flat_map app].
  - now apply lines_last.
  - rewrite <- !app_assoc. cbn [app]. rewrite lines_line by exact Hl. now rewrite IH.
Qed.

Lemma flat_map_map {A B C} (f : A -> B) (g : B -> list C) (l : list A) :
  flat_map g (map f l) = flat_map (fun x => g (f x)) l.
Proof. induction l as [| x l IH]; cbn; [reflexivity | now rewrite IH]. Qed.

Lemma numeric_not_newline c : numeric c -> c <> newline.
Proof. intros H ->. unfold numeric in H. not_literal H. Qed.

End LineFacts.

Section ReceiptLines.

Variables (now : Js.str) (data : PrintData.t).

Lemma formatTextReceipt_body_run (st : fstate) :
  formatTextReceipt_body now st =
  (tt, {| data_obj := data_obj st;
          receipt := receipt st ++
            flat_map (fun l => l ++ [newline])
                     (removelast (textReceiptLines now (data_obj st))) |}).
Proof.
  destruct st as [d r].
  cbv beta iota zeta delta [formatTextReceipt_body fbind get when emit fret data_obj receipt].
  unfold textReceiptLines. rewrite !app_assoc, removelast_last.
  rewrite !flat_map_app, flat_map_map.
  destruct (truthy (PrintData.customerName d)),
           (truthy (PrintData.customerPhone d));
    cbv beta iota zeta delta [data_obj receipt];
    rewrite (forEach_emits _ _
               (fun d item => textItemLine (PrintData.currency d) item ++ [newline]))
      by reflexivity;
    cbv beta iota zeta delta [data_obj receipt];
    destruct (Number.gt0 (PrintData.taxPercentage d));
    cbv beta iota zeta delta [data_obj receipt];
    unfold taxLine, newline; cbn [flat_map app];
    repeat rewrite <- app_assoc; cbn [app]; rewrite ?app_nil_r; reflexivity.
Qed.

End ReceiptLines.

Section Origins.

Lemma existsb_In (c : Js.char16) (s : Js.str) : existsb (N.eqb c) s = true -> In c s.
Proof.
  intros H. apply existsb_exists in H as (d & Hd & E).
  apply N.eqb_eq in E. now subst d.
Qed.

Lemma in_padEnd c (s : Js.str) w : In c (Js.padEnd s w) -> In c s \/ c = Js.space.
Proof.
  unfold Js.padEnd. intros H. apply in_app_or in H as [H | H]; [now left |].
  apply in_repeat_eq in H. now right.
Qed.

Lemma in_padStart c (s : Js.str) w : In c (Js.padStart s w) -> In c s \/ c = Js.space.
Proof.
  unfold Js.padStart. intros H. apply in_app_or in H as [H | H]; [| now left].
  apply in_repeat_eq in H. now right.
Qed.

Lemma in_center c (s : Js.str) w : In c (center s w) -> In c s \/ c = Js.space.
Proof.
  unfold center. intros H.
  apply in_app_or in H as [H | H]; [apply in_repeat_str in H; right |].
  - cbn in H. now destruct H as [<- | []].
  - apply in_app_or in H as [H | H]; [now left |].
    apply in_repeat_str in H. right. cbn in H. now destruct H as [<- | []].
Qed.

End Origins.

(** A character of a label or of a printer command is in the alphabet. *)
Ltac in_alphabet H :=
  cbn in H;
  repeat (destruct H as [<- | H]; [left; apply existsb_In; reflexivity |]);
  destruct H.

(** Where a character of a piece of a receipt comes from. *)
Ltac trace_back H :=
  lazymatch type of H with
  | In _ (_ ++ _) =>
      apply in_app_or in H; destruct H as [H | H]; trace_back H
  | In _ (Js.padStart _ _) =>
      apply in_padStart in H; destruct H as [H | H];
      [trace_back H | subst; left; apply existsb_In; reflexivity]
  | In _ (Js.padEnd _ _) =>
      apply in_padEnd in H; destruct H as [H | H];
      [trace_back H | subst; left; apply existsb_In; reflexivity]
  | In _ (center _ _) =>
      apply in_center in H; destruct H as [H | H];
      [trace_back H | subst; left; apply existsb_In; reflexivity]
  | In _ (padLine _ _ _ _) =>
      apply in_padLine in H; destruct H as [H | [H | [H | [H | H]]]];
      [trace_back H | trace_back H | trace_back H | trace_back H
      | subst; left; apply existsb_In; reflexivity]
  | In _ (Js.substring _ _ _) => apply in_substring in H; trace_back H
  | In _ (Js.repeat _ _) => apply in_repeat_str in H; trace_back H
  | In _ (Number.toFixed _ _) => right; left; exact (numeric_toFixed _ _ _ H)
  | In _ (Number.toString _) => right; left; exact (numeric_toString _ _ H)
  | In _ (Js.lit _) => in_alphabet H
  | In _ [] => destruct H
  | _ => idtac
  end.

Section Origins2.

Variables (now : Js.str) (data : PrintData.t).

Lemma caller_store c alphabet :
  In c (PrintData.storeName data) -> origin alphabet now data c.
Proof.
  intros H. do 3 right. apply Exists_exists. eexists. split; [| exact H].
  unfold callerTexts. now left.
Qed.

Lemma caller_name c alphabet :
  In c (text (PrintData.customerName data)) -> origin alphabet now data c.
Proof.
  intros H. do 3 right. apply Exists_exists. eexists. split; [| exact H].
  unfold callerTexts. right. now left.
Qed.

Lemma caller_phone c alphabet :
  In c (text (PrintData.customerPhone data)) -> origin alphabet now data c.
Proof.
  intros H. do 3 right. apply Exists_exists. eexists. split; [| exact H].
  unfold callerTexts. do 2 right. now left.
Qed.

Lemma caller_payment c alphabet :
  In c (PrintData.paymentMethod data) -> origin alphabet now data c.
Proof.
  intros H. do 3 right. apply Exists_exists. eexists. split; [| exact H].
  unfold callerTexts. do 3 right. now left.
Qed.

Lemma caller_currency c alphabet :
  In c (PrintData.currency data) -> origin alphabet now data c.
Proof.
  intros H. do 3 right. apply Exists_exists. eexists. split; [| exact H].
  unfold callerTexts. do 4 right. now left.
Qed.

Lemma caller_item c alphabet item :
  In item (PrintData.items data) -> In c (PrintItem.name item) ->
  origin alphabet now data c.
Proof.
  intros Hi H. do 3 right. apply Exists_exists. eexists. split; [| exact H].
  unfold callerTexts. do 5 right. now apply in_map.
Qed.

Lemma caller_now c alphabet : In c now -> origin alphabet now data c.
Proof. intros H. right. right. now left. Qed.

End Origins2.

Create HintDb origin discriminated.
#[export] Hint Resolve caller_store caller_name caller_phone caller_payment
  caller_currency caller_item caller_now : origin.

Section LineOrigins.

Variables (now : Js.str) (data : PrintData.t).

(** Every character of a line of the plain-text receipt is of the alphabet
    of the formatter, of a rendered number, of the date, or of a text of the
    caller. *)
Lemma textReceiptLines_origin (l : Js.str) (c : Js.char16) :
  In l (textReceiptLines now data) -> In c l ->
  origin textAlphabet now data c.
Proof.
  intros Hl Hc. unfold textReceiptLines in Hl.
  repeat (apply in_app_or in Hl; destruct Hl as [Hl | Hl]).
  all: repeat lazymatch type of Hl with
       | In _ (if ?b then _ else _) => destruct b
       | In _ (_ :: _) => destruct Hl as [<- | Hl]
       | In _ [] => destruct Hl
       | In _ (map _ _) =>
           apply in_map_iff in Hl; destruct Hl as (item & <- & Hitem);
           unfold textItemLine in Hc
       end.
  all: unfold taxLine in *; trace_back Hc; eauto with origin.
Qed.

(** The same of the ESC/POS receipt. *)
Lemma receiptLines_origin (l : Js.str) (c : Js.char16) :
  In l (receiptLines now data) -> In c l ->
  origin receiptAlphabet now data c.
Proof.
  intros Hl Hc. unfold receiptLines in Hl.
  repeat (apply in_app_or in Hl; destruct Hl as [Hl | Hl]).
  all: repeat lazymatch type of Hl with
       | In _ (if ?b then _ else _) => destruct b
       | In _ (_ :: _) => destruct Hl as [<- | Hl]
       | In _ [] => destruct Hl
       | In _ (map _ _) =>
           apply in_map_iff in Hl; destruct Hl as (item & <- & Hitem);
           unfold itemRow in Hc
       end.
  all: unfold taxLine, totalLine in *; trace_back Hc; eauto with origin.
  all: in_alphabet Hc.
Qed.

End LineOrigins.

Section ReceiptAsLines.

Variables (now : Js.str) (data : PrintData.t).

Lemma origin_avoids (alphabet : Js.str) (c : Js.char16) :
  avoids c alphabet -> ~ numeric c ->
  Forall (avoids c) (now :: callerTexts data) ->
  ~ origin alphabet now data c.
Proof.
  intros Ha Hn Ht [H | [H | [H | H]]]; [now apply Ha | now apply Hn | |].
  - apply Forall_cons_iff in Ht as [Hnow _]. now apply Hnow.
  - apply Forall_cons_iff in Ht as [_ Ht].
    apply Exists_exists in H as (t & Hin & Hc).
    rewrite Forall_forall in Ht. now apply (Ht t Hin).
Qed.

Lemma formatReceipt_unlines :
  formatReceipt now data =
  flat_map (fun l => l ++ [newline]) (removelast (receiptLines now data))
  ++ CUT_PAPER.
Proof.
  rewrite formatReceipt_eq.
  unfold receiptLines. rewrite !app_assoc, removelast_last.
  rewrite !flat_map_app, flat_map_map.
  unfold receiptHead, receiptRows, receiptFoot, separator, LINE_FEED, LF, newline.
  destruct (truthy (PrintData.customerName data)),
           (truthy (PrintData.customerPhone data)),
           (Number.gt0 (PrintData.taxPercentage data));
    cbn [flat_map app];
    repeat (progress (rewrite <- ?app_assoc; cbn [app]));
    rewrite ?app_nil_r; reflexivity.
Qed.

Lemma formatTextReceipt_unlines :
  formatTextReceipt now data =
  flat_map (fun l => l ++ [newline]) (removelast (textReceiptLines now data)).
Proof. unfold formatTextReceipt. now rewrite formatTextReceipt_body_run. Qed.

Lemma newline_not_numeric : ~ numeric newline.
Proof. intros H. now apply numeric_not_newline in H. Qed.

End ReceiptAsLines.

(** X1.  The ESC/POS receipt, line by line.  When neither the date nor a
    text of the caller holds a line feed, the lines of what [formatReceipt]
    returns are exactly: the two initialisations; the store name after the
    commands for centred, double-size, bold print; the end of those; a rule
    of 48 dashes; the customer line and the phone line, each only for a
    non-empty value; date and payment; the header row between two rules; one
    row of [padLine] per item, in the order of the items; a rule; the
    subtotal; the tax line only when [taxPercentage > 0]; the total in bold;
    the thanks; two empty lines; and the cut command, with no line feed after
    it. *)
Theorem formatReceipt_lines (now : Js.str) (data : PrintData.t) :
  Forall (avoids newline) (now :: callerTexts data) ->
  Js.lines (formatReceipt now data) = receiptLines now data.
Proof.
  intros Htexts. rewrite formatReceipt_unlines.
  assert (Hall : Forall (avoids newline) (receiptLines now data)).
  { apply Forall_forall. intros l Hl Hc.
    apply (origin_avoids now data receiptAlphabet newline);
      [intros H; not_literal H | exact newline_not_numeric | exact Htexts |].
    now apply (receiptLines_origin now data l). }
  unfold receiptLines in *. rewrite !app_assoc in *. rewrite removelast_last.
  apply Forall_app in Hall as [Hbody Hcut].
  apply lines_unlines; [exact Hbody | now apply Forall_inv in Hcut].
Qed.

(** X2.  The plain-text receipt, line by line, under the same proviso: the
    store name centred in 48 columns, a rule of 48 equals signs, the optional
    customer and phone lines, date, payment, a rule of dashes, one line per
    item in the order of the items, a rule, subtotal, the tax line only when
    [taxPercentage > 0], and the total, each padded on the left to 48
    columns, an empty line, the thanks centred, and a final line feed. *)
Theorem formatTextReceipt_lines (now : Js.str) (data : PrintData.t) :
  Forall (avoids newline) (now :: callerTexts data) ->
  Js.lines (formatTextReceipt now data) = textReceiptLines now data.
Proof.
  intros Htexts. rewrite formatTextReceipt_unlines.
  assert (Hall : Forall (avoids newline) (textReceiptLines now data)).
  { apply Forall_forall. intros l Hl Hc.
    apply (origin_avoids now data textAlphabet newline);
      [intros H; not_literal H | exact newline_not_numeric | exact Htexts |].
    now apply (textReceiptLines_origin now data l). }
  unfold textReceiptLines in *. rewrite !app_assoc in *. rewrite removelast_last.
  apply Forall_app in Hall as [Hbody Hlast].
  rewrite <- (app_nil_r (flat_map _ _)).
  apply lines_unlines; [exact Hbody | now apply Forall_inv in Hlast].
Qed.

Section TextReceipt.

Lemma repeat_space (n : nat) : Js.repeat (Js.lit " ") n = List.repeat Js.space n.
Proof.
  unfold Js.repeat. induction n as [| n IH]; [reflexivity |].
  cbn [List.repeat List.concat]. now rewrite IH.
Qed.

Lemma origin_Forall (now : Js.str) (data : PrintData.t) (alphabet : Js.str)
      (P : Js.char16 -> Prop) :
  Forall P alphabet -> (forall c, numeric c -> P c) ->
  Forall (Forall P) (now :: callerTexts data) ->
  forall c, origin alphabet now data c -> P c.
Proof.
  intros Ha Hn Ht c [H | [H | [H | H]]].
  - rewrite Forall_forall in Ha. now apply Ha.
  - now apply Hn.
  - apply Forall_cons_iff in Ht as [Hnow _].
    rewrite Forall_forall in Hnow. now apply Hnow.
  - apply Forall_cons_iff in Ht as [_ Ht].
    apply Exists_exists in H as (t & Hin & Hc).
    rewrite Forall_forall in Ht. specialize (Ht t Hin).
    rewrite Forall_forall in Ht. now apply Ht.
Qed.

Lemma numeric_printable c : numeric c -> printable c.
Proof.
  unfold numeric, printable. intros H. cbn in H.
  repeat (destruct H as [<- | H]; [apply N.leb_le; reflexivity |]). destruct H.
Qed.

Lemma textAlphabet_printable : Forall printable textAlphabet.
Proof.
  apply Forall_forall. intros c H. unfold printable. cbn in H.
  repeat (destruct H as [<- | H]; [apply N.leb_le; reflexivity |]). destruct H.
Qed.

End TextReceipt.

(** X3.  [center] never cuts: the text is kept whole between two runs of
    spaces that together fill the width, the left run the shorter one when
    the padding is odd; the result is as long as the wider of the text and
    the width. *)
Theorem center_keeps_the_text (s : Js.str) (w : nat) :
  exists l r,
    center s w = List.repeat Js.space l ++ s ++ List.repeat Js.space r
    /\ l + r = w - Js.len s
    /\ l <= r <= l + 1
    /\ Js.len (center s w) = Nat.max w (Js.len s).
Proof.
  exists ((w - Js.len s) / 2), (w - Js.len s - (w - Js.len s) / 2).
  assert (Hdiv : 2 * ((w - Js.len s) / 2) <= w - Js.len s
                 /\ w - Js.len s < 2 * ((w - Js.len s) / 2) + 2).
  { pose proof (Nat.div_mod_eq (w - Js.len s) 2) as E.
    pose proof (Nat.mod_upper_bound (w - Js.len s) 2) as U. lia. }
  unfold center. rewrite !repeat_space.
  split; [reflexivity |]. split; [lia |]. split; [lia |].
  unfold Js.len in *. rewrite !length_app, !repeat_length. lia.
Qed.

(** X4.  A line of an item in the plain-text receipt: its first 20 columns
    are the first 20 characters of the name, padded with spaces; quantity,
    price and total are rendered in full whatever their width, the total at
    the end of the line; so the line is never shorter than 42 columns and
    the currency signs. *)
Theorem textItemLine_keeps_amounts (currency : Js.str) (item : PrintItem.t) :
  let line := textItemLine currency item in
  Js.substring line 0 20 = Js.padEnd (firstn 20 (PrintItem.name item)) 20
  /\ Js.Includes line (Number.toString (PrintItem.quantity item))
  /\ Js.Includes line (Number.toFixed (PrintItem.price item) 2)
  /\ (exists pre, line = pre ++ Number.toFixed (PrintItem.total item) 2)
  /\ 42 + 2 * Js.len currency <= Js.len line.
Proof.
  cbv zeta. unfold textItemLine. rewrite (substring_from_0 (PrintItem.name item)).
  set (name := firstn 20 (PrintItem.name item)).
  set (qty := Number.toString (PrintItem.quantity item)).
  set (price := Number.toFixed (PrintItem.price item) 2).
  set (total := Number.toFixed (PrintItem.total item) 2).
  assert (Hname : List.length (Js.padEnd name 20) = 20).
  { unfold Js.padEnd, Js.len, name. rewrite length_app, repeat_length.
    pose proof (firstn_le_length 20 (PrintItem.name item)). lia. }
  split; [| split; [| split; [| split]]].
  - rewrite substring_from_0.
    rewrite <- Hname at 1. now rewrite firstn_app, Nat.sub_diag, firstn_all, app_nil_r.
  - unfold Js.padStart at 1.
    exists (Js.padEnd name 20 ++ Js.lit " " ++ List.repeat Js.space (3 - Js.len qty)).
    eexists. now rewrite <- !app_assoc.
  - unfold Js.padStart at 2.
    exists (Js.padEnd name 20 ++ Js.lit " " ++ Js.padStart qty 3 ++ Js.lit " "
            ++ currency ++ List.repeat Js.space (8 - Js.len price)).
    eexists. now rewrite <- !app_assoc.
  - unfold Js.padStart at 3.
    exists (Js.padEnd name 20 ++ Js.lit " " ++ Js.padStart qty 3 ++ Js.lit " "
            ++ currency ++ Js.padStart price 8 ++ Js.lit " "
            ++ currency ++ List.repeat Js.space (8 - Js.len total)).
    now rewrite <- !app_assoc.
  - unfold Js.len. rewrite !length_app, Hname.
    unfold Js.padStart, Js.len. rewrite !length_app, !repeat_length. cbn [List.length Js.lit map list_ascii_of_string]. lia.
Qed.

(** X5.  The plain-text receipt holds no printer command: when the date and
    the texts of the caller are free of control characters, every character
    of what [formatTextReceipt] returns is a line feed or a character from
    the space upwards. *)
Theorem formatTextReceipt_has_no_commands (now : Js.str) (data : PrintData.t) :
  Forall (Forall printable) (now :: callerTexts data) ->
  Forall (fun c => c = newline \/ printable c) (formatTextReceipt now data).
Proof.
  intros Htexts. rewrite formatTextReceipt_unlines.
  apply Forall_forall. intros c Hc.
  apply in_flat_map in Hc as (l & Hl & Hc).
  apply in_app_or in Hc as [Hc | [<- | []]]; [right | now left].
  apply (origin_Forall now data textAlphabet printable);
    [exact textAlphabet_printable | exact numeric_printable | exact Htexts |].
  apply (textReceiptLines_origin now data l); [| exact Hc].
  unfold textReceiptLines in *. rewrite !app_assoc in *.
  rewrite removelast_last in Hl. apply in_or_app. now left.
Qed.

(** For X1: the receipt of the turmeric sale at noon has 19 lines, the
    total on the fourteenth. *)
Lemma masale_formatReceipt_lines :
  Forall (avoids newline) (noon :: callerTexts masaleReceipt)
  /\ List.length (Js.lines (formatReceipt noon masaleReceipt)) = 19
  /\ nth_error (Js.lines (formatReceipt noon masaleReceipt)) 13
     = Some (BOLD_ON ++ Js.lit "TOTAL: " ++ rupee ++ Js.lit "106.20").
Proof.
  assert (H : Forall (avoids newline) (noon :: callerTexts masaleReceipt))
    by (repeat constructor; intros H; not_literal H).
  split; [exact H |].
  rewrite (formatReceipt_lines noon masaleReceipt H).
  split; vm_compute; reflexivity.
Defined.

(** For X2: the plain-text receipt of the same sale. *)
Lemma masale_formatTextReceipt_lines :
  Forall (avoids newline) (noon :: callerTexts masaleReceipt)
  /\ Js.lines (formatTextReceipt noon masaleReceipt)
     = [ Js.lit "               Krushnkamal Masale               ";
         Js.lit "================================================";
         Js.lit "Date: 11/2/2026, 12:00:00 PM";
         Js.lit "Payment: cash";
         Js.lit "------------------------------------------------";
         Js.lit "Turmeric Powder        2 " ++ rupee ++ Js.lit "   45.00 "
         ++ rupee ++ Js.lit "   90.00";
         Js.lit "------------------------------------------------";
         Js.lit "                                Subtotal: " ++ rupee ++ Js.lit "90.00";
         Js.lit "                               Tax (18%): " ++ rupee ++ Js.lit "16.20";
         Js.lit "                                  TOTAL: " ++ rupee ++ Js.lit "106.20";
         [];
         Js.lit "          Thank you for your business!          ";
         [] ].
Proof.
  assert (H : Forall (avoids newline) (noon :: callerTexts masaleReceipt))
    by (repeat constructor; intros H; not_literal H).
  split; [exact H |].
  rewrite (formatTextReceipt_lines noon masaleReceipt H).
  vm_compute. reflexivity.
Defined.

(** For X5: the same receipt has no control character but the line feed. *)
Lemma masale_formatTextReceipt_has_no_commands :
  Forall (Forall printable) (noon :: callerTexts masaleReceipt)
  /\ Forall (fun c => c = newline \/ printable c)
            (formatTextReceipt noon masaleReceipt).
Proof.
  assert (H : Forall (Forall printable) (noon :: callerTexts masaleReceipt))
    by (repeat constructor; apply N.leb_le; reflexivity).
  split; [exact H | exact (formatTextReceipt_has_no_commands noon masaleReceipt H)].
Defined.

(* ===================================================================== *)
(** * What each transport does with its device *)
(* ===================================================================== *)

Section Loops.

Variable host : Host.t.

(** The loop over the addresses: it posts to the addresses in order up to
    the first that answers with [ok], and fails when none does. *)
Lemma tryPrinterIPs_through (ips : list Js.str) (receiptData : Js.str) (n : nat) :
  let ok ip := answers_ok (fetch host (printerURL ip) receiptData) in
  trace (tryPrinterIPs host ips receiptData n)
  = map (fun ip => Fetch (printerURL ip) receiptData) (through ok ips)
  /\ outcome (tryPrinterIPs host ips receiptData n)
     = (if existsb ok ips then Ok tt
        else Thrown (Error (Js.lit "Raw socket print failed"))).
Proof.
  cbv zeta. revert n. induction ips as [| ip rest IH]; intros n.
  - split; reflexivity.
  - cbn [tryPrinterIPs through existsb map].
    unfold bind, catch, doFetch, ret.
    destruct (fetch host (printerURL ip) receiptData) as [| [|]];
      cbn [trace outcome reads app answers_ok orb].
    + destruct (IH n) as [Ht Ho]. now rewrite Ht, Ho.
    + split; reflexivity.
    + destruct (IH n) as [Ht Ho]. now rewrite Ht, Ho.
Qed.

(** The loop over the baud rates: it opens the port at the rates in order up
    to the first at which it opens. *)
Lemma tryBaudRates_through (rates : list Z) (n : nat) :
  trace (tryBaudRates host rates n) = map PortOpen (through (port_open host) rates)
  /\ outcome (tryBaudRates host rates n) = Ok (existsb (port_open host) rates)
  /\ reads (tryBaudRates host rates n) = n.
Proof.
  induction rates as [| baudRate rest IH]; cbn [tryBaudRates through existsb map].
  - repeat split.
  - unfold bind, catch, call, ret.
    destruct (port_open host baudRate); cbn [outcome reads trace app orb].
    + repeat split.
    + destruct IH as (Ht & Ho & Hr). now rewrite Ht, Ho, Hr.
Qed.

Lemma writeChunks_writing (dataArray : list N) (i : nat) :
  forall n, Forall writing (trace (writeChunks host dataArray i n)).
Proof.
  funelim (writeChunks host dataArray i); clear Heqcall; intros k.
  - pose proof (H tt tt 0 k) as IH. clear H.
    unfold bind, call. cbv zeta.
    destruct (writer_write host i _); cbn [outcome reads trace app].
    + constructor; [exact I |]. constructor; [exact I | exact IH].
    + constructor; [exact I | constructor].
  - constructor.
Qed.

End Loops.

(** X6.  The raw-socket transport posts the receipt to the three addresses
    in their listed order and stops at the first that answers with a
    response that is [ok]; an address that rejects or answers without [ok]
    is passed over.  It succeeds exactly when some address answers with
    [ok], and fails with "Raw socket print failed" otherwise. *)
Theorem printViaRawSocket_stops_at_first_ok
        (host : Host.t) (receiptData : Js.str) (n : nat) :
  let r := printViaRawSocket host receiptData n in
  let ok ip := answers_ok (fetch host (printerURL ip) receiptData) in
  fetched (trace r) = map printerURL (through ok printerIPs)
  /\ Forall (fun e => match e with Fetch _ body => body = receiptData | _ => True end)
            (trace r)
  /\ is_ok (outcome r) = existsb ok printerIPs
  /\ (existsb ok printerIPs = false ->
      outcome r = Thrown (Error (Js.lit "Raw socket print failed"))).
Proof.
  cbv zeta. unfold printViaRawSocket. rewrite method_at. cbn [outcome trace].
  destruct (tryPrinterIPs_through host printerIPs receiptData n) as [Ht Ho].
  cbv zeta in Ht, Ho. rewrite Ht, Ho.
  set (ok := fun ip => answers_ok (fetch host (printerURL ip) receiptData)).
  split; [| split; [| split]].
  - unfold fetched. cbn [flat_map app]. rewrite flat_map_app. cbn [flat_map app].
    rewrite app_nil_r, flat_map_map.
    induction (through ok printerIPs) as [| ip l IH]; [reflexivity |].
    cbn [flat_map map app]. now rewrite IH.
  - constructor; [exact I |]. apply Forall_app. split; [| now repeat constructor].
    apply Forall_forall. intros e He.
    apply in_map_iff in He as (ip & <- & _). reflexivity.
  - now destruct (existsb ok printerIPs).
  - now intros ->.
Qed.


Lemma call_bind_at {B} (ev : Event) (ok : bool) (k : IO B) n :
  bind (call ev ok) (fun _ => k) n =
  if ok
  then {| outcome := outcome (k n); reads := reads (k n);
          trace := ev :: trace (k n) |}
  else {| outcome := Thrown Rejected; reads := n; trace := [ev] |}.
Proof. unfold bind, call. now destruct ok. Qed.

(** A list of events without [device.close()]. *)
Ltac no_close :=
  let H := fresh in
  split; [| discriminate]; intros H;
  repeat (destruct H as [H | H]; [discriminate H |]); destruct H.

(** X7.  What the WebUSB transport does with the device.  The receipt is
    handed to [transferOut] only once the device was chosen, opened,
    configured and claimed; [device.close()] is called only after the
    transfer went through, so a failure after [open] leaves the device open;
    the method succeeds only if [close] did too; and any failure past the
    check for the API is thrown as "WebUSB print failed: " with its
    cause. *)
Theorem printViaWebUSB_closes_only_after_transfer
        (host : Host.t) (receiptData : Js.str) (n : nat) :
  let r := printViaWebUSB host receiptData n in
  let claimed := has_usb host && usb_requestDevice host && usb_open host
                 && usb_selectConfiguration host && usb_claimInterface host in
  let sent := claimed && usb_transferOut host (Js.encode receiptData) in
  transfers (trace r) = (if claimed then [Js.encode receiptData] else [])
  /\ (In UsbClose (trace r) <-> sent = true)
  /\ is_ok (outcome r) = sent && usb_close host
  /\ (has_usb host = true -> is_ok (outcome r) = false ->
      outcome r = Thrown (ErrorFrom (Js.lit "WebUSB print failed: ") Rejected)).
Proof.
  cbv zeta. unfold printViaWebUSB. rewrite method_at.
  destruct (has_usb host); cbn [negb andb]; cycle 1.
  { rewrite throw_at. cbn [outcome reads trace app is_ok].
    split; [reflexivity |]. split; [no_close |]. split; [reflexivity | discriminate]. }
  rewrite catch_at, call_bind_at.
  destruct (usb_requestDevice host); cbn [outcome reads trace andb]; cycle 1.
  { rewrite throw_at. cbn [outcome reads trace app is_ok].
    split; [reflexivity |]. split; [no_close |]. split; reflexivity. }
  rewrite call_bind_at.
  destruct (usb_open host); cbn [outcome reads trace andb]; cycle 1.
  { rewrite throw_at. cbn [outcome reads trace app is_ok].
    split; [reflexivity |]. split; [no_close |]. split; reflexivity. }
  rewrite call_bind_at.
  destruct (usb_selectConfiguration host); cbn [outcome reads trace andb]; cycle 1.
  { rewrite throw_at. cbn [outcome reads trace app is_ok].
    split; [reflexivity |]. split; [no_close |]. split; reflexivity. }
  rewrite call_bind_at.
  destruct (usb_claimInterface host); cbn [outcome reads trace andb]; cycle 1.
  { rewrite throw_at. cbn [outcome reads trace app is_ok].
    split; [reflexivity |]. split; [no_close |]. split; reflexivity. }
  rewrite call_bind_at.
  destruct (usb_transferOut host (Js.encode receiptData));
    cbn [outcome reads trace andb]; cycle 1.
  { rewrite throw_at. cbn [outcome reads trace app is_ok].
    split; [reflexivity |]. split; [no_close |]. split; reflexivity. }
  rewrite call_at.
  destruct (usb_close host); cbn [outcome reads trace app is_ok andb].
  - split; [reflexivity |]. split; [split; [reflexivity | intros _; cbn; auto 10] |].
    split; [reflexivity | discriminate].
  - rewrite throw_at. cbn [outcome reads trace app is_ok].
    split; [reflexivity |]. split; [split; [reflexivity | intros _; cbn; auto 10] |].
    split; reflexivity.
Qed.

Section SerialRun.

Variables (host : Host.t) (data : PrintData.t).

(** The steps of the serial transport around the loop [write] that sends the
    bytes. *)
Lemma serial_steps (write : list N -> IO unit) (n : nat) :
  let body :=
    catch
      (bind (call SerialRequestPort (serial_requestPort host)) (fun _ =>
       bind (tryBaudRates host baudRates) (fun connected =>
       if negb connected
       then throw (Error (Js.lit "Could not establish serial connection"))
       else
         bind (call GetWriter (port_getWriter host)) (fun _ =>
         bind (formatReceiptIO host data) (fun receiptData =>
         bind (write (Js.encode receiptData)) (fun _ =>
         bind (call ReleaseLock true) (fun _ =>
         call PortClose (port_close host))))))))
      (fun error => throw (ErrorFrom (Js.lit "Serial printing failed: ") error)) in
  let sent := write (Js.encode (formatReceipt (clock host n) data)) (S n) in
  trace (body n) =
    SerialRequestPort ::
    (if serial_requestPort host
     then map PortOpen (through (port_open host) baudRates) ++
          (if existsb (port_open host) baudRates
           then GetWriter ::
                (if port_getWriter host
                 then trace sent ++
                      (if is_ok (outcome sent) then [ReleaseLock; PortClose] else [])
                 else [])
           else [])
     else [])
  /\ is_ok (outcome (body n)) =
       serial_requestPort host && existsb (port_open host) baudRates
       && port_getWriter host && is_ok (outcome sent) && port_close host
  /\ (is_ok (outcome (body n)) = false ->
      exists cause,
        outcome (body n) = Thrown (ErrorFrom (Js.lit "Serial printing failed: ") cause)
        /\ (existsb (port_open host) baudRates = false ->
            serial_requestPort host = true ->
            cause = Error (Js.lit "Could not establish serial connection"))).
Proof.
  cbv zeta.
  set (sent := write (Js.encode (formatReceipt (clock host n) data)) (S n)).
  rewrite catch_at, call_bind_at.
  destruct (serial_requestPort host); cbn [outcome reads trace andb]; cycle 1.
  { rewrite throw_at. cbn [outcome reads trace app is_ok].
    split; [reflexivity |]. split; [reflexivity |]. intros _.
    eexists. split; [reflexivity | discriminate]. }
  rewrite bind_at.
  destruct (tryBaudRates_through host baudRates n) as (Ht & Ho & Hr).
  rewrite Ho, Hr, Ht.
  generalize (through (port_open host) baudRates). intros rates.
  destruct (existsb (port_open host) baudRates);
    cbn [negb outcome reads trace andb]; cycle 1.
  { rewrite !throw_at. cbn [outcome reads trace app is_ok].
    rewrite ?app_nil_r.
    split; [reflexivity |]. split; [reflexivity |]. intros _.
    eexists. split; reflexivity. }
  rewrite call_bind_at.
  destruct (port_getWriter host); cbn [outcome reads trace andb]; cycle 1.
  { rewrite throw_at. cbn [outcome reads trace app is_ok].
    rewrite ?app_nil_r.
    split; [reflexivity |]. split; [reflexivity |]. intros _.
    eexists. split; [reflexivity | discriminate]. }
  rewrite bind_at, formatReceiptIO_at. cbn [outcome reads trace app].
  rewrite bind_at. fold sent. clearbody sent.
  destruct (outcome sent) as [[] | e] eqn:Es; cbn [outcome reads trace is_ok andb].
  - rewrite call_bind_at, call_at.
    destruct (port_close host); cbn [outcome reads trace app is_ok].
    + rewrite ?app_nil_r.
      split; [reflexivity |]. split; [reflexivity | discriminate].
    + rewrite throw_at. cbn [outcome reads trace app is_ok]. rewrite ?app_nil_r.
      split; [reflexivity |]. split; [reflexivity |]. intros _.
      eexists. split; [reflexivity | discriminate].
  - rewrite throw_at. cbn [outcome reads trace app is_ok]. rewrite ?app_nil_r.
    split; [reflexivity |]. split; [reflexivity |]. intros _.
    eexists. split; [reflexivity | discriminate].
Qed.

(** The run of the serial transport, step by step. *)
Lemma printViaSerial_run (n : nat) :
  let sent := writeChunks host (Js.encode (formatReceipt (clock host n) data)) 0 (S n) in
  let r := printViaSerial host data n in
  trace r =
    Call Serial :: SerialRequestPort ::
    (if serial_requestPort host
     then map PortOpen (through (port_open host) baudRates) ++
          (if existsb (port_open host) baudRates
           then GetWriter ::
                (if port_getWriter host
                 then trace sent ++
                      (if is_ok (outcome sent) then [ReleaseLock; PortClose] else [])
                 else [])
           else [])
     else [])
    ++ [Return Serial (is_ok (outcome r))]
  /\ is_ok (outcome r) =
       serial_requestPort host && existsb (port_open host) baudRates
       && port_getWriter host && is_ok (outcome sent) && port_close host
  /\ (is_ok (outcome r) = false ->
      exists cause,
        outcome r = Thrown (ErrorFrom (Js.lit "Serial printing failed: ") cause)
        /\ (existsb (port_open host) baudRates = false ->
            serial_requestPort host = true ->
            cause = Error (Js.lit "Could not establish serial connection"))).
Proof.
  cbv zeta.
  destruct (serial_steps (fun dataArray => writeChunks host dataArray 0) n)
    as (Ht & Ho & He).
  unfold printViaSerial. rewrite method_at. cbn [outcome trace].
  split; [| split; [exact Ho | exact He]].
  cbv beta in Ht. rewrite Ht. reflexivity.
Qed.

End SerialRun.

Section SerialFootprint.

Lemma writing_opened (l : list Event) : Forall writing l -> opened l = [].
Proof.
  unfold opened. induction 1 as [| e l He _ IH]; [reflexivity |].
  cbn [flat_map]. rewrite IH. now destruct e.
Qed.

Lemma writing_not_in (l : list Event) (e : Event) :
  Forall writing l -> ~ writing e -> ~ In e l.
Proof. intros Hl He H. rewrite Forall_forall in Hl. now apply He, Hl. Qed.

Lemma opened_PortOpen (rates : list Z) : opened (map PortOpen rates) = rates.
Proof.
  unfold opened. induction rates as [| b l IH]; [reflexivity |].
  cbn [map flat_map app]. now rewrite IH.
Qed.

Lemma writes_PortOpen (rates : list Z) : writes (map PortOpen rates) = [].
Proof.
  unfold writes. induction rates as [| b l IH]; [reflexivity |].
  cbn [map flat_map app]. exact IH.
Qed.

Lemma opened_app a b : opened (a ++ b) = opened a ++ opened b.
Proof. apply flat_map_app. Qed.

Lemma in_PortOpen (rates : list Z) (e : Event) :
  In e (map PortOpen rates) -> exists b, e = PortOpen b.
Proof. intros H. apply in_map_iff in H as (b & <- & _). now exists b. Qed.

End SerialFootprint.

(** X8.  The serial transport opens the port at 9600, 115200, 38400 and
    19200 baud, in this order, and stops at the first rate at which
    [port.open] succeeds.  When the port opens at none of them, it fails with
    "Serial printing failed: " over "Could not establish serial connection",
    having asked for no writer and written nothing. *)
Theorem printViaSerial_tries_baud_rates_in_order
        (host : Host.t) (data : PrintData.t) (n : nat) :
  let r := printViaSerial host data n in
  baudRates = [9600; 115200; 38400; 19200]%Z
  /\ opened (trace r)
     = (if serial_requestPort host then through (port_open host) baudRates else [])
  /\ (serial_requestPort host = true ->
      existsb (port_open host) baudRates = false ->
      outcome r = Thrown (ErrorFrom (Js.lit "Serial printing failed: ")
                            (Error (Js.lit "Could not establish serial connection")))
      /\ ~ In GetWriter (trace r)
      /\ writes (trace r) = []).
Proof.
  cbv zeta. split; [reflexivity |].
  destruct (printViaSerial_run host data n) as (Ht & Ho & He). cbv zeta in Ht, Ho, He.
  pose proof (writeChunks_writing host
                (Js.encode (formatReceipt (clock host n) data)) 0 (S n)) as Hw.
  set (sent := writeChunks host _ 0 (S n)) in *. clearbody sent.
  split.
  - rewrite Ht. clear He.
    change (opened (Call Serial :: SerialRequestPort :: ?l)) with (opened l).
    assert (Hret : forall b, opened [Return Serial b] = []) by reflexivity.
    rewrite opened_app, Hret, app_nil_r.
    destruct (serial_requestPort host); [| reflexivity].
    rewrite opened_app, opened_PortOpen.
    destruct (existsb (port_open host) baudRates); [| now rewrite app_nil_r].
    change (opened (GetWriter :: ?l)) with (opened l).
    destruct (port_getWriter host); [| now rewrite app_nil_r].
    rewrite opened_app, (writing_opened _ Hw).
    destruct (is_ok (outcome sent)); now rewrite app_nil_r.
  - intros Hport Hnone. rewrite Hport, Hnone in *. cbn [andb] in Ho.
    destruct (He Ho) as (cause & Hc & Hcause).
    rewrite Hc, (Hcause eq_refl eq_refl). split; [reflexivity |].
    rewrite Ht, app_nil_r. split.
    + intros [H | [H | H]]; try discriminate H.
      apply in_app_or in H as [H | [H | []]]; [| discriminate H].
      apply in_PortOpen in H as (b & H). discriminate H.
    + change (writes (Call Serial :: SerialRequestPort :: ?l)) with (writes l).
      rewrite writes_app, writes_PortOpen. reflexivity.
Qed.

(** X9.  The serial transport gives up the writer and the port only after it
    has written everything.  [writer.releaseLock()] and [port.close()] are
    called together or not at all; when they are, every chunk was written
    successfully and the chunks make up the whole receipt; so after a write
    that fails the lock is kept and the port stays open.  The method
    succeeds exactly when it got as far as [port.close()] and that call
    succeeded. *)
Theorem printViaSerial_releases_only_after_all_writes
        (host : Host.t) (data : PrintData.t) (n : nat) :
  let r := printViaSerial host data n in
  let payload := Js.encode (formatReceipt (clock host n) data) in
  (In ReleaseLock (trace r) <-> In PortClose (trace r))
  /\ (In PortClose (trace r) ->
      Forall (fun w => snd w = true) (writes (trace r))
      /\ List.concat (map fst (writes (trace r))) = payload)
  /\ (Exists (fun w => snd w = false) (writes (trace r)) ->
      ~ In ReleaseLock (trace r) /\ ~ In PortClose (trace r))
  /\ (is_ok (outcome r) = true <-> In PortClose (trace r) /\ port_close host = true).
Proof.
  cbv zeta.
  destruct (printViaSerial_run host data n) as (Ht & Ho & _). cbv zeta in Ht, Ho.
  pose proof (writeChunks_writing host
                (Js.encode (formatReceipt (clock host n) data)) 0 (S n)) as Hw.
  pose proof (writeChunks_run host
                (Js.encode (formatReceipt (clock host n) data)) 0 (S n)) as Hrun.
  cbv zeta in Hrun.
  destruct Hrun as (_ & (rest & Hrest & Hdone) & _ & _ & Hall & _).
  set (payload := Js.encode (formatReceipt (clock host n) data)) in *.
  set (sent := writeChunks host payload 0 (S n)) in *. clearbody sent.
  set (r := printViaSerial host data n) in *. clearbody r.
  (* what the run shows, by how far it got *)
  assert (Hcases :
    (serial_requestPort host && existsb (port_open host) baudRates
     && port_getWriter host && is_ok (outcome sent) = true
     /\ In ReleaseLock (trace r) /\ In PortClose (trace r)
     /\ writes (trace r) = writes (trace sent))
    \/ (serial_requestPort host && existsb (port_open host) baudRates
        && port_getWriter host && is_ok (outcome sent) = false
        /\ ~ In ReleaseLock (trace r) /\ ~ In PortClose (trace r))).
  { rewrite Ht. clear Ht Ho.
    assert (Hports : forall e, In e (map PortOpen (through (port_open host) baudRates)) ->
                               e <> ReleaseLock /\ e <> PortClose).
    { intros e He. apply in_PortOpen in He as (b & ->). split; discriminate. }
    assert (Hsent : forall e, In e (trace sent) -> e <> ReleaseLock /\ e <> PortClose).
    { intros e He. rewrite Forall_forall in Hw. specialize (Hw e He).
      split; intros ->; exact Hw. }
    pose proof (writes_PortOpen (through (port_open host) baudRates)) as Hquiet.
    generalize dependent (map PortOpen (through (port_open host) baudRates)).
    intros ports Hports Hquiet.
    destruct (serial_requestPort host); cbn [andb]; cycle 1.
    { right. split; [reflexivity |].
      split; intros H; repeat (destruct H as [H | H]; [discriminate H |]); destruct H. }
    destruct (existsb (port_open host) baudRates); cbn [andb]; cycle 1.
    { right. split; [reflexivity |].
      split; intros H; repeat (destruct H as [H | H]; [discriminate H |]);
        rewrite app_nil_r in H; apply in_app_or in H as [H | [H | []]];
        try discriminate H; apply Hports in H; tauto. }
    destruct (port_getWriter host); cbn [andb]; cycle 1.
    { right. split; [reflexivity |].
      split; intros H; repeat (destruct H as [H | H]; [discriminate H |]);
        apply in_app_or in H as [H | [H | []]];
        try discriminate H;
        apply in_app_or in H as [H | [H | []]];
        try discriminate H; apply Hports in H; tauto. }
    destruct (is_ok (outcome sent)); [left | right]; (split; [reflexivity |]).
    - split; [| split].
      + do 2 right. apply in_or_app. left. apply in_or_app. right. right.
        apply in_or_app. right. now left.
      + do 2 right. apply in_or_app. left. apply in_or_app. right. right.
        apply in_or_app. right. right. now left.
      + change (writes (Call Serial :: SerialRequestPort :: ?l)) with (writes l).
        rewrite !writes_app, Hquiet.
        change (writes (GetWriter :: ?l)) with (writes l).
        rewrite writes_app. cbn [writes flat_map app]. now rewrite !app_nil_r.
    - split; intros H; repeat (destruct H as [H | H]; [discriminate H |]);
        apply in_app_or in H as [H | [H | []]]; try discriminate H;
        apply in_app_or in H as [H | [H | H]]; try discriminate H;
        try (apply Hports in H; tauto);
        rewrite app_nil_r in H; apply Hsent in H; tauto. }
  destruct Hcases as [(Hfar & Hrel & Hclose & Hws) | (Hfar & Hrel & Hclose)].
  - rewrite Hfar in Ho. cbn [andb] in Ho.
    apply andb_true_iff in Hfar as [_ Hok].
    split; [tauto |]. split; [| split].
    + intros _. rewrite Hws. split; [now apply Hall |].
      rewrite (Hdone Hok), app_nil_r in Hrest. now rewrite <- Hrest.
    + intros Hex. exfalso. rewrite Hws in Hex.
      apply Exists_exists in Hex as (w & Hin & Hbad).
      specialize (Hall Hok). rewrite Forall_forall in Hall.
      rewrite (Hall w Hin) in Hbad. discriminate Hbad.
    + rewrite Ho. split; [intros ->; now split | now intros [_ ->]].
  - rewrite Hfar in Ho. cbn [andb] in Ho.
    split; [tauto |]. split; [tauto |]. split; [tauto |].
    rewrite Ho. split; [discriminate | tauto].
Qed.

Section Causes.

Variable host : Host.t.

Lemma tryMethods_outcome (methods : list (IO unit)) (n : nat) :
  outcome (tryMethods methods n) = Ok tt
  \/ outcome (tryMethods methods n)
     = Thrown (Error (Js.lit "All POS print methods failed")).
Proof.
  revert n. induction methods as [| m rest IH]; intros n; [now right |].
  cbn [tryMethods]. rewrite outcome_catch.
  destruct (outcome (m n)) as [[] | e]; [now left | apply IH].
Qed.

End Causes.

(** X10.  What [printViaPOSCommand] reports.  It fails exactly when all four
    of USB, Android bridge, Windows bridge and raw socket were tried and
    failed, and then with the fixed error "All POS print methods failed":
    none of the four causes is kept. *)
Theorem printViaPOSCommand_drops_the_causes
        (host : Host.t) (data : PrintData.t) (n : nat) :
  let r := printViaPOSCommand host data n in
  (outcome r = Ok tt
   \/ outcome r = Thrown (Error (Js.lit "All POS print methods failed")))
  /\ (is_ok (outcome r) = false <->
      returns (trace r) = [(WebUSB, false); (AndroidIntent, false);
                           (WindowsPrint, false); (RawSocket, false)]).
Proof.
  cbv zeta. split.
  - unfold printViaPOSCommand. rewrite outcome_bind, formatReceiptIO_at.
    cbn [outcome reads]. apply tryMethods_outcome.
  - rewrite printViaPOSCommand_ok, printViaPOSCommand_trace.
    set (first := formatReceipt (clock host n) data).
    pose proof (attempt_returns _ _ _ _
                  (proj1 (printViaWebUSB_attempt host first first (S n)))) as Hu.
    pose proof (attempt_returns _ _ _ _
                  (proj1 (printViaAndroidIntent_attempt host first first (S n)))) as Ha.
    pose proof (attempt_returns _ _ _ _
                  (proj1 (printViaWindowsPrint_attempt host first first (S n)))) as Hw.
    pose proof (attempt_returns _ _ _ _
                  (proj1 (printViaRawSocket_attempt host first first (S n)))) as Hs.
    rewrite returns_app, Hu.
    destruct (is_ok (outcome (printViaWebUSB host first (S n))));
      cbn [orb app]; [split; discriminate |].
    rewrite returns_app, Ha.
    destruct (is_ok (outcome (printViaAndroidIntent host first (S n))));
      cbn [orb app]; [split; discriminate |].
    rewrite returns_app, Hw.
    destruct (is_ok (outcome (printViaWindowsPrint host first (S n))));
      cbn [orb app]; [split; discriminate |].
    rewrite Hs.
    destruct (is_ok (outcome (printViaRawSocket host first (S n))));
      split; solve [discriminate | reflexivity].
Qed.

(** X11.  [print] can deliver the same receipt twice.  When the USB printer
    has taken the bytes but [device.close()] then fails, the USB attempt
    counts as failed and the cascade goes on: on a till whose Android bridge
    prints, the receipt is handed to the USB printer and to the bridge. *)
Theorem print_can_deliver_twice (host : Host.t) (data : PrintData.t) (n : nat) :
  let first := formatReceipt (clock host n) data in
  has_usb host = true ->
  usb_requestDevice host = true ->
  usb_open host = true ->
  usb_selectConfiguration host = true ->
  usb_claimInterface host = true ->
  usb_transferOut host (Js.encode first) = true ->
  usb_close host = false ->
  has_Android host = true ->
  Android_print host first = true ->
  trace (print host data n)
  = [ Call WebUSB; UsbRequestDevice; UsbOpen; UsbSelectConfiguration 1;
      UsbClaimInterface 0; UsbTransferOut 1 (Js.encode first); UsbClose;
      Return WebUSB false;
      Call AndroidIntent; AndroidPrint first; Return AndroidIntent true ].
Proof.
  cbv zeta. intros Husb Hreq Hopen Hsel Hclaim Hout Hclose Handroid Hprint.
  rewrite print_trace.
  set (first := formatReceipt (clock host n) data) in *.
  assert (Hu : printViaWebUSB host first (S n) =
               {| outcome := Thrown (ErrorFrom (Js.lit "WebUSB print failed: ") Rejected);
                  reads := S n;
                  trace := [ Call WebUSB; UsbRequestDevice; UsbOpen;
                             UsbSelectConfiguration 1; UsbClaimInterface 0;
                             UsbTransferOut 1 (Js.encode first); UsbClose;
                             Return WebUSB false ] |}).
  { unfold printViaWebUSB. rewrite method_at, Husb. cbn [negb].
    rewrite catch_at, call_bind_at, Hreq. cbn [outcome reads trace].
    rewrite call_bind_at, Hopen. cbn [outcome reads trace].
    rewrite call_bind_at, Hsel. cbn [outcome reads trace].
    rewrite call_bind_at, Hclaim. cbn [outcome reads trace].
    rewrite call_bind_at, Hout. cbn [outcome reads trace].
    rewrite call_at, Hclose. cbn [outcome reads trace]. rewrite throw_at. reflexivity. }
  assert (Ha : printViaAndroidIntent host first (S n) =
               {| outcome := Ok tt; reads := S n;
                  trace := [ Call AndroidIntent; AndroidPrint first;
                             Return AndroidIntent true ] |}).
  { unfold printViaAndroidIntent. rewrite method_at, Handroid, call_at, Hprint.
    reflexivity. }
  rewrite Hu, Ha. reflexivity.
Qed.

(** For X11: a till on which it happens. *)
Lemma closeFailsHost_delivers_twice :
  (has_usb closeFailsHost = true /\ usb_close closeFailsHost = false
   /\ has_Android closeFailsHost = true)
  /\ transfers (trace (print closeFailsHost masaleReceipt 0))
     = [Js.encode (formatReceipt noon masaleReceipt)]
  /\ In (AndroidPrint (formatReceipt noon masaleReceipt))
        (trace (print closeFailsHost masaleReceipt 0)).
Proof.
  split; [repeat split |].
  rewrite (print_can_deliver_twice closeFailsHost masaleReceipt 0
             eq_refl eq_refl eq_refl eq_refl eq_refl eq_refl eq_refl eq_refl eq_refl).
  split; [reflexivity |]. do 9 right. left. reflexivity.
Defined.

(* ===================================================================== *)
(** * The cart of the sales screen *)
(* ===================================================================== *)

Section Cart.

Import SalesInterface.

Lemma eqb_eq (s t : Js.str) : Js.eqb s t = true <-> s = t.
Proof.
  revert t. induction s as [| c s IH]; intros [| d t]; cbn [Js.eqb];
    try (split; [discriminate | discriminate]); [tauto |].
  rewrite andb_true_iff, N.eqb_eq, IH.
  split; [intros [-> ->]; reflexivity | intros H; now inversion H].
Qed.

Lemma eqb_refl (s : Js.str) : Js.eqb s s = true.
Proof. now apply eqb_eq. Qed.

Lemma eqb_neq (s t : Js.str) : s <> t -> Js.eqb s t = false.
Proof.
  intros H. destruct (Js.eqb s t) eqn:E; [| reflexivity].
  now apply eqb_eq in E.
Qed.

Lemma ids_updated (cart : list CartItem.t) (productId : Js.str) (f : CartItem.t -> CartItem.t) :
  (forall item, CartItem.id (f item) = CartItem.id item) ->
  ids (map (fun item => if Js.eqb (CartItem.id item) productId then f item else item) cart)
  = ids cart.
Proof.
  intros Hf. unfold ids. rewrite map_map. apply map_ext. intros item.
  now destruct (Js.eqb (CartItem.id item) productId).
Qed.

Lemma ids_removed (cart : list CartItem.t) (productId : Js.str) :
  ids (removeFromCart cart productId)
  = filter (fun i => negb (Js.eqb i productId)) (ids cart).
Proof.
  unfold ids, removeFromCart. induction cart as [| item cart IH]; [reflexivity |].
  cbn [filter map].
  destruct (Js.eqb (CartItem.id item) productId); cbn [negb map]; now rewrite IH.
Qed.

Lemma NoDup_filter_ids (p : Js.str -> bool) (l : list Js.str) :
  NoDup l -> NoDup (filter p l).
Proof.
  induction 1 as [| x l Hx _ IH]; [constructor |].
  cbn [filter]. destruct (p x); [| exact IH].
  constructor; [| exact IH]. intros H. apply filter_In in H. tauto.
Qed.

Lemma find_none_ids (cart : list CartItem.t) (productId : Js.str) :
  find (fun item => Js.eqb (CartItem.id item) productId) cart = None ->
  ~ In productId (ids cart).
Proof.
  intros Hnone Hin. unfold ids in Hin.
  apply in_map_iff in Hin as (item & Hid & Hitem).
  pose proof (find_none _ _ Hnone item Hitem) as H. cbv beta in H.
  rewrite Hid, eqb_refl in H. discriminate H.
Qed.

Lemma updateCartQuantity_cases (cart : list CartItem.t) (productId : Js.str)
      (newQuantity : Number.t) :
  updateCartQuantity cart productId newQuantity = removeFromCart cart productId
  \/ updateCartQuantity cart productId newQuantity
     = map (fun item =>
              if Js.eqb (CartItem.id item) productId
              then {| CartItem.id := CartItem.id item;
                      CartItem.name := CartItem.name item;
                      CartItem.price := CartItem.price item;
                      CartItem.unit := CartItem.unit item;
                      CartItem.inventory := CartItem.inventory item;
                      CartItem.quantity := newQuantity;
                      CartItem.total := PrimFloat.mul (CartItem.price item) newQuantity |}
              else item)
           cart.
Proof.
  unfold updateCartQuantity. destruct (PrimFloat.leb newQuantity 0); [now left | now right].
Qed.

(** What [addToCart] leaves: the cart as it was, the cart with the quantity
    of the product updated, or the cart with a line for the product added at
    the end, the product not having been in it. *)
Lemma addToCart_cases (cart : list CartItem.t) (product : Product.t) (quantity : Number.t) :
  fst (addToCart cart product quantity) = cart
  \/ (exists newQuantity,
        fst (addToCart cart product quantity)
        = updateCartQuantity cart (Product.id product) newQuantity)
  \/ (~ In (Product.id product) (ids cart)
      /\ fst (addToCart cart product quantity)
         = cart ++ [ {| CartItem.id := Product.id product;
                        CartItem.name := Product.name product;
                        CartItem.price := Product.price product;
                        CartItem.unit := Product.unit product;
                        CartItem.inventory := Product.inventory product;
                        CartItem.quantity := quantity;
                        CartItem.total := PrimFloat.mul (Product.price product) quantity |} ]).
Proof.
  unfold addToCart.
  destruct (find _ cart) as [existing |] eqn:Efind;
    match goal with |- context [if ?b then _ else _] => destruct b end;
    cbn [fst]; [now left | right; left; eauto | now left |].
  right. right. split; [now apply find_none_ids | reflexivity].
Qed.

End Cart.

(** X12.  Every line of the cart keeps [total = price * quantity]: if it
    holds of the lines of a cart, it holds of the lines after [addToCart],
    after [updateCartQuantity] and after [removeFromCart], whatever the
    product and the quantity. *)
Theorem cart_lines_stay_priced
        (cart : list SalesInterface.CartItem.t) (product : SalesInterface.Product.t)
        (quantity : Number.t) (productId : Js.str) (newQuantity : Number.t) :
  Forall priced cart ->
  Forall priced (fst (SalesInterface.addToCart cart product quantity))
  /\ Forall priced (SalesInterface.updateCartQuantity cart productId newQuantity)
  /\ Forall priced (SalesInterface.removeFromCart cart productId).
Proof.
  intros Hcart.
  assert (Hremove : forall p, Forall priced (SalesInterface.removeFromCart cart p)).
  { intros p. unfold SalesInterface.removeFromCart.
    apply Forall_forall. intros item Hitem. apply filter_In in Hitem as [Hitem _].
    rewrite Forall_forall in Hcart. now apply Hcart. }
  assert (Hupdate : forall p q, Forall priced (SalesInterface.updateCartQuantity cart p q)).
  { intros p q. destruct (updateCartQuantity_cases cart p q) as [-> | ->]; [apply Hremove |].
    apply Forall_forall. intros item Hitem.
    apply in_map_iff in Hitem as (old & <- & Hold).
    destruct (Js.eqb (SalesInterface.CartItem.id old) p); [reflexivity |].
    rewrite Forall_forall in Hcart. now apply Hcart. }
  split; [| split; [apply Hupdate | apply Hremove]].
  destruct (addToCart_cases cart product quantity) as [-> | [(q & ->) | (_ & ->)]];
    [exact Hcart | apply Hupdate |].
  apply Forall_app. split; [exact Hcart |]. constructor; [reflexivity | constructor].
Qed.

(** X13.  A cart has at most one line per product: if the product ids of the
    lines are pairwise different, they still are after [addToCart], after
    [updateCartQuantity] and after [removeFromCart].  Adding a product that
    is in the cart changes its line and adds none. *)
Theorem cart_keeps_one_line_per_product
        (cart : list SalesInterface.CartItem.t) (product : SalesInterface.Product.t)
        (quantity : Number.t) (productId : Js.str) (newQuantity : Number.t) :
  NoDup (ids cart) ->
  NoDup (ids (fst (SalesInterface.addToCart cart product quantity)))
  /\ NoDup (ids (SalesInterface.updateCartQuantity cart productId newQuantity))
  /\ NoDup (ids (SalesInterface.removeFromCart cart productId))
  /\ (In (SalesInterface.Product.id product) (ids cart) ->
      List.length (fst (SalesInterface.addToCart cart product quantity))
      <= List.length cart).
Proof.
  intros Hcart.
  assert (Hremove : forall p, NoDup (ids (SalesInterface.removeFromCart cart p))).
  { intros p. rewrite ids_removed. now apply NoDup_filter_ids. }
  assert (Hupdate : forall p q, NoDup (ids (SalesInterface.updateCartQuantity cart p q))).
  { intros p q. destruct (updateCartQuantity_cases cart p q) as [-> | ->]; [apply Hremove |].
    now rewrite ids_updated. }
  assert (Hshort : forall p q,
             List.length (SalesInterface.updateCartQuantity cart p q) <= List.length cart).
  { intros p q. destruct (updateCartQuantity_cases cart p q) as [-> | ->].
    - unfold SalesInterface.removeFromCart. apply filter_length_le.
    - now rewrite length_map. }
  split; [| split; [apply Hupdate | split; [apply Hremove |]]].
  - destruct (addToCart_cases cart product quantity) as [-> | [(q & ->) | (Hnew & ->)]];
      [exact Hcart | apply Hupdate |].
    unfold ids. rewrite map_app. cbn [map SalesInterface.CartItem.id].
    apply NoDup_app; [exact Hcart | repeat constructor; now intros [] |].
    intros i Hi [<- | []]. now apply Hnew.
  - intros Hin.
    destruct (addToCart_cases cart product quantity) as [-> | [(q & ->) | (Hnew & _)]];
      [reflexivity | apply Hshort | contradiction].
Qed.

(** X14.  An operation on one product leaves the lines of every other
    product as they are, and in their order: [addToCart],
    [updateCartQuantity] and [removeFromCart] for a product change no line
    with another id. *)
Theorem cart_operations_touch_one_product
        (cart : list SalesInterface.CartItem.t) (product : SalesInterface.Product.t)
        (quantity newQuantity : Number.t) (other : Js.str) :
  other <> SalesInterface.Product.id product ->
  let productId := SalesInterface.Product.id product in
  linesOf other (fst (SalesInterface.addToCart cart product quantity))
  = linesOf other cart
  /\ linesOf other (SalesInterface.updateCartQuantity cart productId newQuantity)
     = linesOf other cart
  /\ linesOf other (SalesInterface.removeFromCart cart productId)
     = linesOf other cart.
Proof.
  intros Hother productId.
  assert (Hremove : linesOf other (SalesInterface.removeFromCart cart productId)
                    = linesOf other cart).
  { unfold linesOf, SalesInterface.removeFromCart.
    induction cart as [| item cart IH]; [reflexivity |].
    cbn [filter].
    destruct (Js.eqb (SalesInterface.CartItem.id item) productId) eqn:Ep; cbn [negb filter].
    - apply eqb_eq in Ep. rewrite IH.
      rewrite (eqb_neq (SalesInterface.CartItem.id item) other); [reflexivity |].
      rewrite Ep. intros E. apply Hother. now symmetry.
    - now rewrite IH. }
  assert (Hupdate : forall q, linesOf other (SalesInterface.updateCartQuantity cart productId q)
                              = linesOf other cart).
  { intros q.
    destruct (updateCartQuantity_cases cart productId q) as [-> | ->]; [exact Hremove |].
    unfold linesOf. clear Hremove.
    induction cart as [| item cart IH]; [reflexivity |].
    cbn [map filter].
    destruct (Js.eqb (SalesInterface.CartItem.id item) productId) eqn:Ep.
    - cbn [SalesInterface.CartItem.id]. apply eqb_eq in Ep.
      rewrite (eqb_neq (SalesInterface.CartItem.id item) other); [exact IH |].
      rewrite Ep. intros E. apply Hother. now symmetry.
    - now rewrite IH. }
  split; [| split; [apply Hupdate | exact Hremove]].
  destruct (addToCart_cases cart product quantity) as [-> | [(q & ->) | (_ & ->)]];
    [reflexivity | apply Hupdate |].
  unfold linesOf. rewrite filter_app. cbn [filter SalesInterface.CartItem.id].
  fold productId. rewrite (eqb_neq productId other); [apply app_nil_r |].
  intros E. apply Hother. now symmetry.
Qed.

Section Stock.

(** Adding the quantity to a current quantity of zero does not change how it
    compares with the stock. *)
Lemma ltb_add_zero (stock quantity : Number.t) :
  PrimFloat.ltb stock (PrimFloat.add 0%float quantity) = PrimFloat.ltb stock quantity.
Proof.
  rewrite !ltb_spec, add_spec.
  change (Prim2SF 0%float) with (S754_zero false).
  unfold SF64add, SFadd.
  destruct (Prim2SF quantity) as [[|] | | |]; try reflexivity;
    destruct (Prim2SF stock) as [[|] | [|] | | [|]]; reflexivity.
Qed.

End Stock.

(** X15.  [addToCart] never takes more of a product than is in stock: when
    it accepts (it raises no toast), no line of the product in the cart it
    leaves has a quantity above [product.inventory?.quantity_in_stock || 0].
    A product without an inventory row has stock 0. *)
Theorem addToCart_respects_stock
        (cart : list SalesInterface.CartItem.t) (product : SalesInterface.Product.t)
        (quantity : Number.t) (item : SalesInterface.CartItem.t) :
  snd (SalesInterface.addToCart cart product quantity) = None ->
  In item (fst (SalesInterface.addToCart cart product quantity)) ->
  SalesInterface.CartItem.id item = SalesInterface.Product.id product ->
  PrimFloat.ltb (SalesInterface.availableStock product)
                (SalesInterface.CartItem.quantity item) = false.
Proof.
  unfold SalesInterface.addToCart.
  destruct (find _ cart) as [existing |] eqn:Efind;
    match goal with |- context [if ?b then _ else _] => destruct b eqn:Eguard end;
    cbn [fst snd]; try discriminate; intros _ Hitem Hid.
  - destruct (updateCartQuantity_cases cart (SalesInterface.Product.id product)
                (PrimFloat.add (SalesInterface.CartItem.quantity existing) quantity))
      as [E | E]; rewrite E in Hitem.
    + unfold SalesInterface.removeFromCart in Hitem.
      apply filter_In in Hitem as [_ Hne]. rewrite Hid, eqb_refl in Hne. discriminate Hne.
    + apply in_map_iff in Hitem as (old & <- & Hold).
      destruct (Js.eqb (SalesInterface.CartItem.id old) (SalesInterface.Product.id product))
        eqn:Eold; [exact Eguard |].
      rewrite Hid, eqb_refl in Eold. discriminate Eold.
  - apply in_app_or in Hitem as [Hitem | [<- | []]].
    + exfalso. apply (find_none_ids _ _ Efind). rewrite <- Hid.
      unfold ids. now apply in_map.
    + cbn [SalesInterface.CartItem.quantity]. now rewrite <- ltb_add_zero.
Qed.

(** X16.  What [updateCartQuantity] does to the product it is called for.
    A quantity that is [<= 0] takes every line of the product out of the
    cart, as [removeFromCart] does.  Any other quantity keeps the products of
    the cart and their order, and sets quantity and total of the lines of the
    product, whatever the stock of the product is. *)
Theorem updateCartQuantity_sets_or_removes
        (cart : list SalesInterface.CartItem.t) (productId : Js.str)
        (newQuantity : Number.t) :
  let cart' := SalesInterface.updateCartQuantity cart productId newQuantity in
  ~ In productId (ids (SalesInterface.removeFromCart cart productId))
  /\ (PrimFloat.leb newQuantity 0 = true -> ~ In productId (ids cart'))
  /\ (PrimFloat.leb newQuantity 0 = false ->
      ids cart' = ids cart
      /\ forall item, In item cart' -> SalesInterface.CartItem.id item = productId ->
           SalesInterface.CartItem.quantity item = newQuantity
           /\ SalesInterface.CartItem.total item
              = PrimFloat.mul (SalesInterface.CartItem.price item) newQuantity).
Proof.
  cbv zeta.
  assert (Hremove : ~ In productId (ids (SalesInterface.removeFromCart cart productId))).
  { rewrite ids_removed. intros H. apply filter_In in H as [_ H].
    rewrite eqb_refl in H. discriminate H. }
  split; [exact Hremove |]. unfold SalesInterface.updateCartQuantity.
  split; intros ->; [exact Hremove |].
  split; [now apply ids_updated |].
  intros item Hitem Hid. apply in_map_iff in Hitem as (old & <- & Hold).
  destruct (Js.eqb (SalesInterface.CartItem.id old) productId) eqn:Eold;
    [split; reflexivity |].
  rewrite Hid, eqb_refl in Eold. discriminate Eold.
Qed.

(** The cart of two lines, for X12: the totals after a third packet of
    chilli. *)
Lemma twoLines_stay_priced :
  Forall priced twoLines
  /\ Forall priced (fst (SalesInterface.addToCart twoLines chilliPowder 2%float)).
Proof.
  assert (H : Forall priced twoLines) by (repeat constructor).
  split; [exact H |].
  exact (proj1 (cart_lines_stay_priced twoLines chilliPowder 2%float [] 0%float H)).
Defined.

(** For X13: turmeric is in the cart, and one more packet adds no line. *)
Lemma twoLines_keep_one_line_per_product :
  NoDup (ids twoLines)
  /\ NoDup (ids (fst (SalesInterface.addToCart twoLines turmericPowder 1%float)))
  /\ List.length (fst (SalesInterface.addToCart twoLines turmericPowder 1%float)) = 2.
Proof.
  assert (H : NoDup (ids twoLines)).
  { repeat constructor; cbn; intros E; repeat destruct E as [E | E]; try discriminate E;
      exact E. }
  split; [exact H |].
  split; [exact (proj1 (cart_keeps_one_line_per_product
                          twoLines turmericPowder 1%float [] 0%float H)) |].
  vm_compute. reflexivity.
Defined.

(** For X14: a packet of turmeric more leaves the line of the chilli. *)
Lemma twoLines_touch_one_product :
  Js.lit "p-2" <> SalesInterface.Product.id turmericPowder
  /\ linesOf (Js.lit "p-2") (fst (SalesInterface.addToCart twoLines turmericPowder 1%float))
     = linesOf (Js.lit "p-2") twoLines.
Proof.
  assert (H : Js.lit "p-2" <> SalesInterface.Product.id turmericPowder)
    by (intros E; discriminate E).
  split; [exact H |].
  exact (proj1 (cart_operations_touch_one_product
                  twoLines turmericPowder 1%float 0%float (Js.lit "p-2") H)).
Defined.

(** For X15: the three packets of chilli in stock can be had, and no
    fourth. *)
Lemma chilli_respects_stock :
  (snd (SalesInterface.addToCart twoLines chilliPowder 2%float) = None
   /\ In threeChilli (fst (SalesInterface.addToCart twoLines chilliPowder 2%float))
   /\ SalesInterface.CartItem.id threeChilli = SalesInterface.Product.id chilliPowder)
  /\ PrimFloat.ltb (SalesInterface.availableStock chilliPowder)
                   (SalesInterface.CartItem.quantity threeChilli) = false
  /\ fst (SalesInterface.addToCart
            (fst (SalesInterface.addToCart twoLines chilliPowder 2%float))
            chilliPowder 1%float)
     = fst (SalesInterface.addToCart twoLines chilliPowder 2%float).
Proof.
  assert (H1 : snd (SalesInterface.addToCart twoLines chilliPowder 2%float) = None)
    by reflexivity.
  assert (H2 : In threeChilli (fst (SalesInterface.addToCart twoLines chilliPowder 2%float)))
    by (right; left; reflexivity).
  assert (H3 : SalesInterface.CartItem.id threeChilli
               = SalesInterface.Product.id chilliPowder) by reflexivity.
  split; [now repeat split |].
  split; [exact (addToCart_respects_stock twoLines chilliPowder 2%float threeChilli H1 H2 H3) |].
  reflexivity.
Defined.

(* ===================================================================== *)
(** * The bill the sales screen prints *)
(* ===================================================================== *)

(** The lines of a receipt have no line feed when the date and the texts of
    the caller have none. *)
Lemma receiptLines_avoid_newline (now : Js.str) (data : PrintData.t) :
  Forall (avoids newline) (now :: callerTexts data) ->
  Forall (avoids newline) (receiptLines now data).
Proof.
  intros Htexts. apply Forall_forall. intros l Hl Hc.
  apply (origin_avoids now data receiptAlphabet newline);
    [intros H; not_literal H | exact newline_not_numeric | exact Htexts |].
  now apply (receiptLines_origin now data l).
Qed.

(** X17.  The bill of the sales screen leaves the tax out of the total.  The
    receipt [printBill] has formatted shows the subtotal of the cart,
    a tax line whenever the tax percentage of the settings is above zero,
    and as TOTAL the subtotal again; and its amounts are in rupees whatever
    currency the settings name. *)
Theorem printBill_total_leaves_out_the_tax
        (st : SalesInterface.State) (now : Js.str) :
  let data := SalesInterface.printData st in
  let out := formatReceipt now data in
  let amount :=
    Number.toFixed (SalesInterface.calculateSubtotal (SalesInterface.cart st)) 2 in
  Js.Includes out (ALIGN_RIGHT ++ Js.lit "Subtotal: " ++ rupee ++ amount ++ LINE_FEED)
  /\ Js.Includes out (BOLD_ON ++ Js.lit "TOTAL: " ++ rupee ++ amount ++ LINE_FEED)
  /\ (Number.gt0 (SalesInterface.StoreSettings.tax_percentage
                    (SalesInterface.settings st)) = true ->
      Js.Includes out
        (Js.lit "Subtotal: " ++ rupee ++ amount ++ LINE_FEED
         ++ taxLine data ++ LINE_FEED
         ++ BOLD_ON ++ Js.lit "TOTAL: " ++ rupee ++ amount ++ LINE_FEED)).
Proof.
  cbv zeta. rewrite formatReceipt_eq.
  unfold receiptFoot, totalLine.
  generalize (receiptHead now (SalesInterface.printData st)) as head.
  generalize (receiptRows (SalesInterface.printData st)) as rows.
  generalize (taxLine (SalesInterface.printData st)) as tax.
  cbn [SalesInterface.printData PrintData.currency PrintData.subtotal
       PrintData.total PrintData.taxPercentage].
  unfold SalesInterface.calculateTotal, rupee.
  generalize (Number.toFixed
                (SalesInterface.calculateSubtotal (SalesInterface.cart st)) 2) as amount.
  generalize (Js.lit "Subtotal: ") as subtotal_.
  generalize (Js.lit "TOTAL: ") as total_.
  intros total_ subtotal_ amount tax rows head.
  split; [| split].
  - exists (head ++ rows ++ separator). eexists.
    repeat rewrite <- app_assoc. reflexivity.
  - destruct (Number.gt0 _).
    + exists (head ++ rows ++ separator ++ ALIGN_RIGHT
              ++ subtotal_ ++ [8377%N] ++ amount ++ LINE_FEED ++ tax ++ LINE_FEED).
      eexists. repeat rewrite <- app_assoc. reflexivity.
    + exists (head ++ rows ++ separator ++ ALIGN_RIGHT
              ++ subtotal_ ++ [8377%N] ++ amount ++ LINE_FEED).
      eexists. repeat rewrite <- app_assoc. reflexivity.
  - intros ->.
    exists (head ++ rows ++ separator ++ ALIGN_RIGHT).
    eexists. repeat rewrite <- app_assoc. reflexivity.
Qed.
(** X18.  The bill of the sales screen always names a customer.  Provided
    no text on it holds a line feed, its lines between the first rule and
    the date are the customer line, with "Walk-in" when no name was entered,
    and the phone line exactly when a phone number was entered. *)
Theorem printBill_names_a_customer (st : SalesInterface.State) (now : Js.str) :
  let data := SalesInterface.printData st in
  Forall (avoids newline) (now :: callerTexts data) ->
  exists before after,
    Js.lines (formatReceipt now data)
    = before
      ++ [ ALIGN_LEFT ++ Js.repeat (Js.lit "-") 48;
           Js.lit "Customer: "
           ++ SalesInterface.string_or (SalesInterface.customerName st) (Js.lit "Walk-in") ]
      ++ match SalesInterface.customerPhone st with
         | [] => []
         | _ :: _ => [ Js.lit "Phone: " ++ SalesInterface.customerPhone st ]
         end
      ++ [ Js.lit "Date: " ++ now ]
      ++ after.
Proof.
  cbv zeta. intros Htexts.
  pose proof (receiptLines_avoid_newline _ _ Htexts) as Hall.
  rewrite formatReceipt_unlines.
  unfold receiptLines in *. rewrite !app_assoc in Hall. rewrite !app_assoc, removelast_last.
  apply Forall_app in Hall as [Hbody Hcut].
  rewrite lines_unlines; [| exact Hbody | now apply Forall_inv in Hcut].
  clear Hbody Hcut Htexts.
  cbn [SalesInterface.printData PrintData.customerName PrintData.customerPhone].
  assert (Hname : truthy (Some (SalesInterface.string_or (SalesInterface.customerName st)
                                  (Js.lit "Walk-in"))) = true).
  { now destruct (SalesInterface.customerName st). }
  rewrite Hname. cbn [text].
  eexists [_; _; _]. eexists.
  destruct (SalesInterface.customerPhone st) as [| c phone];
    cbn [SalesInterface.string_or truthy text];
    repeat rewrite <- app_assoc; cbn [app]; reflexivity.
Qed.


(** For X18: the bill of the counter sale, no customer entered. *)
Lemma counterSale_names_a_customer :
  Forall (avoids newline) (noon :: callerTexts (SalesInterface.printData counterSale))
  /\ exists before after,
       Js.lines (formatReceipt noon (SalesInterface.printData counterSale))
       = before
         ++ [ ALIGN_LEFT ++ Js.repeat (Js.lit "-") 48;
              Js.lit "Customer: Walk-in";
              Js.lit "Date: " ++ noon ]
         ++ after.
Proof.
  assert (H : Forall (avoids newline)
                     (noon :: callerTexts (SalesInterface.printData counterSale)))
    by (repeat constructor; intros H; not_literal H).
  split; [exact H |].
  destruct (printBill_names_a_customer counterSale noon H) as (before & after & E).
  exists before, after. exact E.
Defined.

(* ===================================================================== *)
(** * Printer commands in a receipt *)
(* ===================================================================== *)

Section Kick.

Lemma kickless_app (s t : Js.str) :
  kickless s = true -> kickless t = true -> kickless (s ++ t) = true.
Proof.
  intros Hs Ht. induction s as [| c s IH]; [exact Ht |].
  cbn [app kickless] in *.
  destruct (c =? 27)%N; [| now apply IH].
  destruct s as [| d s]; [discriminate Hs |].
  apply andb_true_iff in Hs as [Hd Hs].
  cbn [app]. rewrite Hd. cbn [andb]. now apply IH.
Qed.

Lemma kickless_avoids (s : Js.str) : avoids 27%N s -> kickless s = true.
Proof.
  induction s as [| c s IH]; intros Hs; [reflexivity |].
  cbn [kickless].
  destruct (N.eqb_spec c 27) as [-> | _]; [exfalso; apply Hs; now left |].
  apply IH. intros H. apply Hs. now right.
Qed.

Lemma kickless_flat_map {A} (f : A -> Js.str) (l : list A) :
  (forall x, In x l -> kickless (f x) = true) -> kickless (flat_map f l) = true.
Proof.
  induction l as [| x l IH]; intros H; [reflexivity |].
  cbn [flat_map]. apply kickless_app; [apply H; now left |].
  apply IH. intros y Hy. apply H. now right.
Qed.

Lemma kickless_sound (s : Js.str) :
  kickless s = true -> ~ Js.Includes s (ESC ++ Js.lit "p").
Proof.
  intros Hs (pre & post & E). subst s.
  induction pre as [| c pre IH].
  - cbn in Hs. discriminate Hs.
  - apply IH. cbn [app kickless] in Hs.
    destruct (c =? 27)%N; [| exact Hs].
    destruct (pre ++ (ESC ++ Js.lit "p") ++ post); [discriminate Hs |].
    now apply andb_true_iff in Hs as [_ Hs].
Qed.

End Kick.

Lemma esc_not_numeric : ~ numeric 27%N.
Proof. intros H. unfold numeric in H. not_literal H. Qed.

(** An ESC found in a piece of a receipt is in a text of the caller. *)
Ltac find_esc H :=
  lazymatch type of H with
  | In _ (_ ++ _) => apply in_app_or in H; destruct H as [H | H]; find_esc H
  | In _ (padLine _ _ _ _) =>
      apply in_padLine in H; destruct H as [H | [H | [H | [H | H]]]];
      [find_esc H | find_esc H | find_esc H | find_esc H | discriminate H]
  | In _ (Js.substring _ _ _) => apply in_substring in H; find_esc H
  | In _ (Js.repeat _ _) => apply in_repeat_str in H; find_esc H
  | In _ (Number.toFixed _ _) =>
      apply numeric_toFixed in H; exact (esc_not_numeric H)
  | In _ (Number.toString _) =>
      apply numeric_toString in H; exact (esc_not_numeric H)
  | In _ (Js.lit _) => not_literal H
  | In _ (_ :: _) => not_literal H
  | In _ [] => destruct H
  | _ => idtac
  end.

(** A piece of a receipt that is a command, a label, or free of ESC. *)
Ltac settle :=
  lazymatch goal with
  | |- kickless (ESC ++ Js.lit _) = true => reflexivity
  | |- kickless (Js.lit _) = true => reflexivity
  | |- kickless (_ :: _) = true => reflexivity
  | |- kickless [] = true => reflexivity
  | |- kickless (_ ++ _) = true => apply kickless_app; settle
  | |- kickless (if ?b then _ else _) = true => destruct b; settle
  | |- kickless ?c = true =>
      tryif is_const c then reflexivity
      else first [ assumption
                 | let H := fresh "Hesc" in
                   apply kickless_avoids; intros H; find_esc H ]
  end.

(** X20.  A receipt does not open the cash drawer.  When neither the date
    nor a text of the caller holds the ESC byte, what [formatReceipt]
    returns holds no ESC followed by the letter p, and so nowhere the
    command [DRAWER_OPEN]. *)
Theorem formatReceipt_never_opens_the_drawer (now : Js.str) (data : PrintData.t) :
  Forall (avoids 27%N) (now :: callerTexts data) ->
  ~ Js.Includes (formatReceipt now data) (ESC ++ Js.lit "p")
  /\ ~ Js.Includes (formatReceipt now data) DRAWER_OPEN.
Proof.
  intros Htexts.
  apply Forall_cons_iff in Htexts as [Hnow Htexts]. unfold callerTexts in Htexts.
  apply Forall_cons_iff in Htexts as [Hstore Htexts].
  apply Forall_cons_iff in Htexts as [Hname Htexts].
  apply Forall_cons_iff in Htexts as [Hphone Htexts].
  apply Forall_cons_iff in Htexts as [Hpay Htexts].
  apply Forall_cons_iff in Htexts as [Hcur Hitems].
  rewrite Forall_forall in Hitems. unfold avoids in *.
  assert (Hrows : kickless (receiptRows data) = true).
  { unfold receiptRows. apply kickless_flat_map. intros item Hitem.
    unfold itemRow. settle; try contradiction.
    apply (Hitems (PrintItem.name item)); [now apply in_map | exact Hesc]. }
  assert (Hout : kickless (formatReceipt now data) = true).
  { rewrite formatReceipt_eq.
    unfold receiptHead, receiptFoot, totalLine, taxLine, separator.
    rewrite (app_assoc ESC (Js.lit "@")).
    generalize dependent (receiptRows data). intros rows Hrows.
    settle; contradiction. }
  assert (Hkick : ~ Js.Includes (formatReceipt now data) (ESC ++ Js.lit "p"))
    by now apply kickless_sound.
  split; [exact Hkick |].
  intros H. apply Hkick. apply (Includes_trans _ _ _ H).
  exists [], [0%N; 25%N; 250%N]. reflexivity.
Qed.

(** For X20: the receipt of the turmeric sale. *)
Lemma masale_receipt_never_opens_the_drawer :
  Forall (avoids 27%N) (noon :: callerTexts masaleReceipt)
  /\ ~ Js.Includes (formatReceipt noon masaleReceipt) DRAWER_OPEN.
Proof.
  assert (H : Forall (avoids 27%N) (noon :: callerTexts masaleReceipt))
    by (repeat constructor; intros H; not_literal H).
  split; [exact H |].
  exact (proj2 (formatReceipt_never_opens_the_drawer noon masaleReceipt H)).
Defined.


